(** * Verification of [atroposlib/cli/sft.py]

    A shallow embedding of the SFT data grabber: the longest-common-prefix
    helper, the per-group selector, the registration handshake, the batch
    poller and the orchestration loop, followed by the properties proved of
    them.

    Modelling conventions.
    - Python [str] is [string]; [int] is [Z]; the scores (JSON numbers) are
      exact rationals [Q], so the order on them is total (no NaN).
    - A raised exception is a value of [Error]; pure fallible functions
      return [result], effectful ones run in the monad [IO] over a [World]
      that records every request, sleep, progress update, file opening and
      record written in a trace, and that keeps the output file apart from
      the buffer of the file object writing to it.
    - The tokenizer is an opaque capability [decode]. *)

From Stdlib Require Import List String Ascii Bool Arith ZArith QArith Lia.
From Stdlib Require Import Sorting.Sorted Sorting.Permutation.
Import ListNotations.

Close Scope Q_scope.
Open Scope string_scope.
Open Scope list_scope.

(* ================================================================= *)
(** ** Python strings *)

Module PyStr.

(** [s.startswith(p)] *)
Fixpoint startswith (s p : string) {struct p} : bool :=
  match p with
  | EmptyString => true
  | String a p' =>
      match s with
      | EmptyString => false
      | String b s' => Ascii.eqb a b && startswith s' p'
      end
  end.

(** [s[:-1]] *)
Fixpoint drop_last (s : string) : string :=
  match s with
  | EmptyString => EmptyString
  | String a s' =>
      match s' with
      | EmptyString => EmptyString
      | String _ _ => String a (drop_last s')
      end
  end.

(** [not s] on a string *)
Definition is_empty (s : string) : bool :=
  match s with
  | EmptyString => true
  | String _ _ => false
  end.

(** [s[n:]] for [0 <= n] *)
Fixpoint drop (n : nat) (s : string) : string :=
  match n with
  | O => s
  | S n' =>
      match s with
      | EmptyString => EmptyString
      | String _ s' => drop n' s'
      end
  end.

(** The scan behind [s.split(sep)] for a non-empty [sep]: the text is read
    left to right; where [sep] starts (and we are not inside an occurrence
    already consumed, [skip = 0]) the current segment ends and the next
    [length sep] characters are consumed.  The result is the segment under
    construction and the segments after it. *)
Fixpoint split_scan (sep : string) (skip : nat) (s : string)
  : string * list string :=
  match s with
  | EmptyString => (EmptyString, [])
  | String c s' =>
      match skip with
      | S k => split_scan sep k s'
      | O =>
          if startswith s sep
          then let '(seg, segs) := split_scan sep (String.length sep - 1) s'
               in (EmptyString, seg :: segs)
          else let '(seg, segs) := split_scan sep 0 s'
               in (String c seg, segs)
      end
  end.

(** [sep.join(parts)] *)
Fixpoint join (sep : string) (parts : list string) : string :=
  match parts with
  | [] => EmptyString
  | [p] => p
  | p :: rest => (p ++ sep ++ join sep rest)%string
  end.

End PyStr.

(* ================================================================= *)
(** ** Exceptions *)

Inductive Error : Type :=
| ValueError (msg : string)
| KeyError (key : string)
| IndexError (msg : string).

Inductive result (A : Type) : Type :=
| Ok (a : A)
| Err (e : Error).
Arguments Ok {A} a.
Arguments Err {A} e.

Definition rbind {A B} (r : result A) (k : A -> result B) : result B :=
  match r with
  | Ok a => k a
  | Err e => Err e
  end.

Fixpoint rmap {A B} (f : A -> result B) (l : list A) : result (list B) :=
  match l with
  | [] => Ok []
  | x :: l' =>
      rbind (f x) (fun y => rbind (rmap f l') (fun ys => Ok (y :: ys)))
  end.


(** [s.split(sep)]: an empty separator is a [ValueError]. *)
Definition py_split (s sep : string) : result (list string) :=
  if PyStr.is_empty sep then Err (ValueError "empty separator")
  else let '(seg, segs) := PyStr.split_scan sep 0 s in Ok (seg :: segs).

(** [l[i]] for [0 <= i] *)
Definition py_index {A} (l : list A) (i : nat) : result A :=
  match nth_error l i with
  | Some x => Ok x
  | None => Err (IndexError "list index out of range")
  end.

(* ================================================================= *)
(** ** [find_common_prefix] *)

(** The inner [while not s.startswith(prefix)] loop.  [None] is the
    [return ""] taken inside the loop, [Some p] the prefix the loop ends
    with.  Every turn shortens [prefix] by one character, so
    [String.length prefix] turns are enough ([shrink_fuel_enough]). *)
Fixpoint shrink (fuel : nat) (s prefix : string) : option string :=
  if PyStr.startswith s prefix then Some prefix
  else
    match fuel with
    | O => None
    | S fuel' =>
        let prefix := PyStr.drop_last prefix in
        if PyStr.is_empty prefix then None
        else shrink fuel' s prefix
    end.

(** [for s in strings[1:]] *)
Fixpoint shrink_all (prefix : string) (rest : list string) : string :=
  match rest with
  | [] => prefix
  | s :: rest' =>
      match shrink (String.length prefix) s prefix with
      | None => ""
      | Some prefix' => shrink_all prefix' rest'
      end
  end.

Definition find_common_prefix (strings : list string) : string :=
  match strings with
  | [] => ""
  | s0 :: rest => shrink_all s0 rest
  end.

(** [p] is a prefix of [s]. *)
Definition is_prefix (p s : string) : Prop := exists r, s = (p ++ r)%string.

(** [p] is a prefix of every string of the list. *)
Definition common_prefix (p : string) (strings : list string) : Prop :=
  Forall (is_prefix p) strings.

(* ================================================================= *)
(** ** Data model *)

(** One chat message of a raw-structure candidate: role and content. *)
Definition Message : Type := (string * string)%type.
Definition Chat : Type := list Message.

(** A group as received from the service:
    [{messages?: [...], tokens?: [[int,...],...], scores: [number,...]}].
    It is a dictionary: any of the three entries can be missing, and reading
    a missing one is a [KeyError]. *)
Record Group : Type := {
  messages : option (list Chat);
  tokens : option (list (list Z));
  scores : option (list Q)
}.

(** The persisted record: [{messages, score}] or
    [{prefix, completion, score}]. *)
Inductive SftRecord : Type :=
| RawMessageRecord (messages : Chat) (score : Q)
| DecodedTextRecord (prefix completion : string) (score : Q).

(** [x["score"]] *)
Definition score (x : SftRecord) : Q :=
  match x with
  | RawMessageRecord _ s => s
  | DecodedTextRecord _ _ s => s
  end.

(** The tokenizer, used only through [tok.decode]. *)
Record Tokenizer : Type := { decode : list Z -> string }.

(** An element of [chats]: a raw message structure, or the pair
    [(prefix, completion)]. *)
Inductive ChatItem : Type :=
| RawChat (x : Chat)
| TextChat (prefix completion : string).

(** [datagroup["messages"]], [datagroup["tokens"]], [datagroup["scores"]] *)
Definition get_messages (datagroup : Group) : result (list Chat) :=
  match messages datagroup with
  | Some ms => Ok ms
  | None => Err (KeyError "messages")
  end.

Definition get_tokens (datagroup : Group) : result (list (list Z)) :=
  match tokens datagroup with
  | Some ts => Ok ts
  | None => Err (KeyError "tokens")
  end.

Definition get_scores (datagroup : Group) : result (list Q) :=
  match scores datagroup with
  | Some ss => Ok ss
  | None => Err (KeyError "scores")
  end.

(* ================================================================= *)
(** ** Numbers, sorting and slicing *)

(** [x > y] on scores *)
Definition Qgtb (x y : Q) : bool := negb (Qle_bool x y).

(** [sorted(pairs, key=lambda pair: pair[0], reverse=True)]: a stable sort,
    descending in the first component; pairs with equal keys keep their
    original order. *)
Fixpoint insert_desc {A} (p : Q * A) (l : list (Q * A)) : list (Q * A) :=
  match l with
  | [] => [p]
  | q :: l' =>
      if Qle_bool (fst q) (fst p) then p :: q :: l'
      else q :: insert_desc p l'
  end.

Fixpoint sorted_desc {A} (l : list (Q * A)) : list (Q * A) :=
  match l with
  | [] => []
  | p :: l' => insert_desc p (sorted_desc l')
  end.

(** [min] of a non-empty list, given as head [m] and tail [l]: the first
    smallest element. *)
Fixpoint min_from (m : Q) (l : list Q) : Q :=
  match l with
  | [] => m
  | x :: l' => min_from (if Qgtb m x then x else m) l'
  end.

(** [min(scores) if scores else 0] *)
Definition min_score (scores : list Q) : Q :=
  match scores with
  | [] => 0%Q
  | s :: rest => min_from s rest
  end.

(** [l[:n]]: a negative [n] counts from the end. *)
Definition py_take {A} (n : Z) (l : list A) : list A :=
  if (0 <=? n)%Z then firstn (Z.to_nat n) l
  else firstn (Z.to_nat (Z.of_nat (List.length l) + n)) l.

(* ================================================================= *)
(** ** [grab_group_data] *)

(** [(prefix, chat.split(prefix)[1])] *)
Definition split_chat (prefix chat : string) : result ChatItem :=
  rbind (py_split chat prefix) (fun parts =>
  rbind (py_index parts 1) (fun completion =>
  Ok (TextChat prefix completion))).

(** The [chats] of a group: the raw structures, or the decoded texts split
    at their common prefix. *)
Definition group_chats (tok : Tokenizer) (datagroup : Group)
    (save_messages : bool) : result (list ChatItem) :=
  if save_messages then
    rbind (get_messages datagroup) (fun ms => Ok (map RawChat ms))
  else
    rbind (get_tokens datagroup) (fun toks =>
    let chats := map (decode tok) toks in
    let prefix := find_common_prefix chats in
    rmap (split_chat prefix) chats).

(** The record built from one [(score, x)] of the sorted pairs.  The shape
    of [x] is fixed by [save_messages], so the choice of the dictionary is
    read off [x]. *)
Definition to_record (pair : Q * ChatItem) : SftRecord :=
  match snd pair with
  | TextChat prefix completion =>
      DecodedTextRecord prefix completion (fst pair)
  | RawChat x => RawMessageRecord x (fst pair)
  end.

(** The part of [grab_group_data] after [chats] and [scores] are known:
    sort, filter, truncate. *)
Definition select (scores : list Q) (chats : list ChatItem)
    (save_top_n_per_group : Z) (allow_negative_scores : bool)
    (minimum_score_diff_max_min : Q) : list SftRecord :=
  let sorted_chats := map to_record (sorted_desc (combine scores chats)) in
  let sorted_chats :=
    if negb allow_negative_scores
    then filter (fun x => Qgtb (score x) 0) sorted_chats
    else sorted_chats in
  let sorted_chats :=
    if Qgtb minimum_score_diff_max_min 0
    then
      let min_score := min_score scores in
      filter (fun x => Qgtb (score x - min_score) minimum_score_diff_max_min)
             sorted_chats
    else sorted_chats in
  py_take save_top_n_per_group sorted_chats.

Definition grab_group_data (tok : Tokenizer) (datagroup : Group)
    (save_messages : bool) (save_top_n_per_group : Z)
    (allow_negative_scores : bool) (minimum_score_diff_max_min : Q)
  : result (list SftRecord) :=
  rbind (group_chats tok datagroup save_messages) (fun chats =>
  rbind (get_scores datagroup) (fun scores =>
  Ok (select scores chats save_top_n_per_group
             allow_negative_scores minimum_score_diff_max_min))).

(** What the specification asks of the split: the text after the first
    occurrence of the prefix.  The prefix starts the text, so its first
    occurrence is at position 0. *)
Definition remainder_after_first_occurrence (prefix text : string) : string :=
  PyStr.drop (String.length prefix) text.

(* ================================================================= *)
(** ** The world: remote service, output file, observable trace *)

(** The JSON body of the registration request. *)
Record RegisterBody : Type := {
  wandb_group : string;
  wandb_project : string;
  batch_size : Z;
  max_token_len : Z;
  checkpoint_dir : string;
  save_checkpoint_interval : Z;
  starting_step : Z;
  num_steps : Z
}.

(** The parsed answer [data] to a next-batch request: without a ["batch"]
    entry, [{batch: null}], or [{batch: [Group, ...]}]. *)
Inductive BatchResponse : Type :=
| NoBatchKey
| BatchNull
| BatchList (batch : list Group).

Inductive FileMode : Type := ModeAppend | ModeWrite.

(** What the program does to the outside, in order. *)
Inductive Event : Type :=
| HttpGet (url : string)
| HttpPost (url : string) (json : RegisterBody)
| Sleep (seconds : Z)
| FileOpen (path : string) (mode : FileMode)
| FileWrite (item : SftRecord)
| PbarUpdate (n : Z).

(** [responses]: the answers the service gives to the successive next-batch
    requests; once they are used up the next request is never answered.
    Requests are taken to reach the service: a transport failure ends the
    program at once and is not part of the model.
    [disk]: the lines that have reached the file at the output path, [None]
    when it does not exist.
    [buffer]: [None] while the output file is not open; while it is open,
    the records handed to the writer that the buffered file object still
    holds.  The file is opened with the default buffering and the writer
    does not flush, so a record is certain to be in the file only once the
    file is closed; the file object may write part of its buffer earlier,
    when it fills, and nothing below depends on when.
    [trace]: the events so far, oldest first; closing the file shows in
    [disk] and [buffer], not as an event. *)
Record World : Type := {
  responses : list BatchResponse;
  disk : option (list SftRecord);
  buffer : option (list SftRecord);
  trace : list Event
}.

(** The lines of a file, none if it is not there; the records of a buffer,
    none if there is no buffer. *)
Definition lines_of (d : option (list SftRecord)) : list SftRecord :=
  match d with
  | Some ls => ls
  | None => []
  end.

(** How a computation ends: it returns, raises, waits for ever on a request
    that is never answered, or the model's loop bound is used up. *)
Inductive Outcome (A : Type) : Type :=
| Returned (a : A)
| Raised (e : Error)
| Blocked
| OutOfFuel.
Arguments Returned {A} a.
Arguments Raised {A} e.
Arguments Blocked {A}.
Arguments OutOfFuel {A}.

Definition IO (A : Type) : Type := World -> Outcome A * World.

Definition ret {A} (a : A) : IO A := fun w => (Returned a, w).

Definition raise {A} (e : Error) : IO A := fun w => (Raised e, w).

Definition bind {A B} (c : IO A) (k : A -> IO B) : IO B :=
  fun w =>
    match c w with
    | (Returned a, w') => k a w'
    | (Raised e, w') => (Raised e, w')
    | (Blocked, w') => (Blocked, w')
    | (OutOfFuel, w') => (OutOfFuel, w')
    end.

Notation "x <- c1 ;; c2" := (bind c1 (fun x => c2))
  (at level 61, c1 at next level, right associativity).
Notation "c1 ;; c2" := (bind c1 (fun _ => c2))
  (at level 61, right associativity).

(** Append an event to the trace. *)
Definition emit (e : Event) : IO unit :=
  fun w => (Returned tt,
            {| responses := responses w; disk := disk w;
               buffer := buffer w; trace := trace w ++ [e] |}).

Definition http_get (url : string) : IO unit := emit (HttpGet url).

Definition http_post (url : string) (json : RegisterBody) : IO unit :=
  emit (HttpPost url json).

Definition sleep (seconds : Z) : IO unit := emit (Sleep seconds).

Definition pbar_update (n : Z) : IO unit := emit (PbarUpdate n).

(** [os.path.exists(filepath)] *)
Definition path_exists : IO bool :=
  fun w => (Returned (match disk w with Some _ => true | None => false end), w).

(** [open(filepath, file_mode)]: ["w"] creates or truncates, ["a"] keeps the
    lines there are; the buffer of the new file object is empty. *)
Definition open_file (path : string) (mode : FileMode) : IO unit :=
  fun w =>
    (Returned tt,
     {| responses := responses w;
        disk := match mode with
                | ModeWrite => Some []
                | ModeAppend => Some (lines_of (disk w))
                end;
        buffer := Some [];
        trace := trace w ++ [FileOpen path mode] |}).

(** [jsonl_writer.write(item)]: the line goes to the buffer of the file
    object. *)
Definition jsonl_write (item : SftRecord) : IO unit :=
  fun w =>
    (Returned tt,
     {| responses := responses w;
        disk := disk w;
        buffer := Some (lines_of (buffer w) ++ [item]);
        trace := trace w ++ [FileWrite item] |}).

(** Leaving [with open(...) as f]: the file is closed, which writes the
    buffer out. *)
Definition close_file : IO unit :=
  fun w =>
    (Returned tt,
     {| responses := responses w;
        disk := match buffer w with
                | Some pending => Some (lines_of (disk w) ++ pending)
                | None => disk w
                end;
        buffer := None;
        trace := trace w |}).

(** The body of a [with] block and what leaving it does: [cleanup] runs
    when the body returns and when it raises, and the outcome of the body
    stands; a body that never ends never leaves the block. *)
Definition finally {A} (c : IO A) (cleanup : IO unit) : IO A :=
  fun w =>
    match c w with
    | (Returned a, w') => (Returned a, snd (cleanup w'))
    | (Raised e, w') => (Raised e, snd (cleanup w'))
    | (Blocked, w') => (Blocked, w')
    | (OutOfFuel, w') => (OutOfFuel, w')
    end.

(* ================================================================= *)
(** ** [register_to_api] *)

(** The reset request, then the registration request.  The texts of the two
    answers are only printed, never interpreted, and are left out. *)

Definition register_to_api (group_size max_token_len : Z) (api_url : string)
    (num_steps tasks_per_step : Z) : IO unit :=
  http_get (api_url ++ "/reset_data") ;;
  http_post (api_url ++ "/register")
    {| wandb_group := "test";
       wandb_project := "test";
       batch_size := group_size * tasks_per_step;
       max_token_len := max_token_len;
       checkpoint_dir := "checkpoints";
       save_checkpoint_interval := 10;
       starting_step := 0;
       num_steps := num_steps * 2 |}.

(* ================================================================= *)
(** ** [check_for_batch] *)

(** The [while True] loop, by recursion on the answers still to come: each
    turn issues one request and consumes one answer. *)
Fixpoint poll (api_url : string) (rs : list BatchResponse) (tr : list Event)
  : Outcome (list Group) * (list BatchResponse * list Event) :=
  let tr := tr ++ [HttpGet (api_url ++ "/batch")] in
  match rs with
  | [] => (Blocked, ([], tr))
  | data :: rs' =>
      match data with
      | NoBatchKey => (Raised (KeyError "batch"), (rs', tr))
      | BatchList batch => (Returned batch, (rs', tr))
      | BatchNull => poll api_url rs' (tr ++ [Sleep 1])
      end
  end.

Definition check_for_batch (api_url : string) : IO (list Group) :=
  fun w =>
    let '(o, (rs, tr)) := poll api_url (responses w) (trace w) in
    (o, {| responses := rs; disk := disk w; buffer := buffer w;
           trace := tr |}).

(* ================================================================= *)
(** ** [sft_data_grabber] *)

Record Config : Type := {
  filepath : string;
  api_url : string;
  group_size : Z;
  cfg_max_token_len : Z;
  tokenizer : string;
  save_messages : bool;
  save_top_n_per_group : Z;
  num_seqs_to_save : Z;
  allow_negative_scores : bool;
  minimum_score_diff_max_min : Q;
  append_to_previous : bool;
  tasks_per_step : Z
}.

(** [for item in ...: jsonl_writer.write(item); count += 1] *)
Fixpoint write_items (items : list SftRecord) (count : Z) : IO Z :=
  match items with
  | [] => ret count
  | item :: items' =>
      jsonl_write item ;;
      write_items items' (count + 1)%Z
  end.

(** [for group in data: ...] *)
Fixpoint write_groups (tok : Tokenizer) (cfg : Config) (data : list Group)
    (count : Z) : IO Z :=
  match data with
  | [] => ret count
  | group :: data' =>
      match grab_group_data tok group (save_messages cfg)
              (save_top_n_per_group cfg) (allow_negative_scores cfg)
              (minimum_score_diff_max_min cfg) with
      | Err e => raise e
      | Ok items =>
          count <- write_items items count ;;
          write_groups tok cfg data' count
      end
  end.

Definition grab_batch (tok : Tokenizer) (cfg : Config) : IO Z :=
  data <- check_for_batch (api_url cfg) ;;
  write_groups tok cfg data 0%Z.

(** [while total_count < num_seqs_to_save]; the value returned is the
    [total_count] the loop ends with. *)
Fixpoint grab_loop (fuel : nat) (tok : Tokenizer) (cfg : Config)
    (total_count : Z) : IO Z :=
  if (total_count <? num_seqs_to_save cfg)%Z then
    match fuel with
    | O => fun w => (OutOfFuel, w)
    | S fuel' =>
        batch_count <- grab_batch tok cfg ;;
        let total_count := (total_count + batch_count)%Z in
        pbar_update (Z.min batch_count (num_seqs_to_save cfg - total_count)) ;;
        grab_loop fuel' tok cfg total_count
    end
  else ret total_count.

Section Run.

(** [AutoTokenizer.from_pretrained] *)
Variable from_pretrained : string -> Tokenizer.

Definition sft_data_grabber_fuel (fuel : nat) (cfg : Config) : IO Z :=
  let tok := from_pretrained (tokenizer cfg) in
  let total_count := 0%Z in
  register_to_api (group_size cfg) (cfg_max_token_len cfg) (api_url cfg)
    total_count (tasks_per_step cfg) ;;
  file_exists <- path_exists ;;
  if file_exists && negb (append_to_previous cfg) then
    raise (ValueError ("File '" ++ filepath cfg
             ++ "' already exists and --append-to-previous is False."))
  else
    file_exists <- path_exists ;;
    let file_mode :=
      if append_to_previous cfg && file_exists then ModeAppend
      else ModeWrite in
    open_file (filepath cfg) file_mode ;;
    finally (grab_loop fuel tok cfg total_count) close_file.

(** Every turn of the loop consumes an answer of the service, so one turn
    more than there are answers is always enough
    ([sft_data_grabber_fuel_enough]).  The Python function returns [None];
    here the run returns the [total_count] its loop ends with, so that it
    can be observed. *)
Definition sft_data_grabber (cfg : Config) : IO Z :=
  fun w => sft_data_grabber_fuel (S (List.length (responses w))) cfg w.

End Run.

(** The requests issued to the service, in order. *)
Definition is_request (e : Event) : bool :=
  match e with
  | HttpGet _ | HttpPost _ _ => true
  | _ => false
  end.

(** The progress increments reported, in order. *)
Fixpoint pbar_updates (tr : list Event) : list Z :=
  match tr with
  | [] => []
  | PbarUpdate n :: tr' => n :: pbar_updates tr'
  | _ :: tr' => pbar_updates tr'
  end.

(* ================================================================= *)
(** ** Vocabulary of the statements *)

(** The order of the sort on pairs: the key of [p] is at least that of
    [q]. *)
Definition ge_key {A} (p q : Q * A) : Prop := (fst q <= fst p)%Q.

(** Sorted by score, descending. *)
Definition sorted_by_score_desc (l : list SftRecord) : Prop :=
  StronglySorted (fun x y => (score y <= score x)%Q) l.


(** The trace of [k] answers "not ready": a request and a wait of 1, [k]
    times. *)
Fixpoint not_ready_trace (api_url : string) (k : nat) : list Event :=
  match k with
  | O => []
  | S k' => HttpGet (api_url ++ "/batch") :: Sleep 1
            :: not_ready_trace api_url k'
  end.

(** A computation that only ever adds to the trace. *)
Definition extends_trace {A} (c : IO A) : Prop :=
  forall w, exists more, trace (snd (c w)) = trace w ++ more.

(** The registration body of a run: [num_steps] is [total_count * 2] with
    [total_count] still 0. *)
Definition run_register_body (cfg : Config) : RegisterBody :=
  {| wandb_group := "test";
     wandb_project := "test";
     batch_size := group_size cfg * tasks_per_step cfg;
     max_token_len := cfg_max_token_len cfg;
     checkpoint_dir := "checkpoints";
     save_checkpoint_interval := 10;
     starting_step := 0;
     num_steps := 0 * 2 |}.

(** The two requests of the handshake. *)
Definition handshake (cfg : Config) : list Event :=
  [HttpGet (api_url cfg ++ "/reset_data");
   HttpPost (api_url cfg ++ "/register") (run_register_body cfg)].

(* ================================================================= *)
(** ** Concrete tokenizer, groups and runs used in the examples *)

Module Examples.

(** A stub tokenizer: a token id is a character code. *)
Definition char_decode (ids : list Z) : string :=
  string_of_list_ascii (map (fun z => ascii_of_nat (Z.to_nat z)) ids).

Definition encode (s : string) : list Z :=
  map (fun a => Z.of_nat (nat_of_ascii a)) (list_ascii_of_string s).

Definition char_tok : Tokenizer := {| decode := char_decode |}.

Definition chat_a : Chat := [("user", "a")].
Definition chat_b : Chat := [("user", "b")].
Definition chat_c : Chat := [("user", "c")].

(** Scores [5, 5.5, 0] over three raw candidates. *)
Definition group_scenario_b : Group :=
  {| messages := Some [chat_a; chat_b; chat_c];
     tokens := None;
     scores := Some [5; 55 # 10; 0]%Q |}.


(** Decoded texts ["The cat sat"] and ["The cat ran"]. *)
Definition group_cats : Group :=
  {| messages := None;
     tokens := Some [encode "The cat sat"; encode "The cat ran"];
     scores := Some [1 # 2; 3 # 4]%Q |}.

(** Decoded texts ["abab"] and ["abc"]: the common prefix ["ab"] occurs a
    second time in the first text. *)
Definition group_abab : Group :=
  {| messages := None;
     tokens := Some [encode "abab"; encode "abc"];
     scores := Some [1 # 2; 3 # 4]%Q |}.

(** Decoded texts ["ab"] and ["xy"]: no common prefix but the empty one. *)
Definition group_no_prefix : Group :=
  {| messages := None;
     tokens := Some [encode "ab"; encode "xy"];
     scores := Some [1 # 2; 3 # 4]%Q |}.

(** A raw group of [n] candidates, each with score 1. *)
Definition group_of (n : nat) : Group :=
  {| messages := Some (repeat chat_a n);
     tokens := None;
     scores := Some (repeat 1%Q n) |}.

Definition from_pretrained (name : string) : Tokenizer := char_tok.

(** A run asking for 5 records, raw-structure mode, with the defaults of the
    command line otherwise. *)
Definition cfg5 : Config :=
  {| filepath := "sft_data.jsonl";
     api_url := "http://localhost:8000";
     group_size := 2;
     cfg_max_token_len := 2048;
     tokenizer := "stub";
     save_messages := true;
     save_top_n_per_group := 10;
     num_seqs_to_save := 5;
     allow_negative_scores := false;
     minimum_score_diff_max_min := 0;
     append_to_previous := false;
     tasks_per_step := 64 |}.

(** The same run in decoded-text mode. *)
Definition cfg5_text : Config :=
  {| filepath := "sft_data.jsonl";
     api_url := "http://localhost:8000";
     group_size := 2;
     cfg_max_token_len := 2048;
     tokenizer := "stub";
     save_messages := false;
     save_top_n_per_group := 10;
     num_seqs_to_save := 5;
     allow_negative_scores := false;
     minimum_score_diff_max_min := 0;
     append_to_previous := false;
     tasks_per_step := 64 |}.

(** The service yields a batch of 3 records, then one of 4; there is no
    output file yet. *)
Definition world_3_then_4 : World :=
  {| responses := [BatchList [group_of 3]; BatchList [group_of 4]];
     disk := None;
     buffer := None;
     trace := [] |}.

(** The output file is there already, with one line. *)
Definition world_file_exists : World :=
  {| responses := [BatchList [group_of 3]; BatchList [group_of 4]];
     disk := Some [RawMessageRecord chat_a 1];
     buffer := None;
     trace := [] |}.

(** The service answers with an empty batch. *)
Definition world_empty_batch : World :=
  {| responses := [BatchList []];
     disk := None;
     buffer := None;
     trace := [] |}.

(** The service is not ready twice, then yields a batch. *)
Definition world_not_ready_twice : World :=
  {| responses := [BatchNull; BatchNull; BatchList [group_of 3]];
     disk := None;
     buffer := None;
     trace := [] |}.

(** The first batch holds a group whose texts share no prefix. *)
Definition world_no_prefix : World :=
  {| responses := [BatchList [group_no_prefix]];
     disk := None;
     buffer := None;
     trace := [] |}.

End Examples.

(* ================================================================= *)
(** ** Vocabulary of the further properties *)

(** [sep in s]: [sep] occurs somewhere in [s]. *)
Fixpoint contains (s sep : string) : bool :=
  PyStr.startswith s sep
  || match s with
     | EmptyString => false
     | String _ s' => contains s' sep
     end.

(** The completion the code takes for a text that starts with [prefix]:
    what follows the leading [prefix], up to the next place where [prefix]
    starts. *)
Definition completion_of (prefix text : string) : string :=
  fst (PyStr.split_scan prefix 0 (PyStr.drop (String.length prefix) text)).

(** The records written, in order, by the events of a trace. *)
Fixpoint writes (tr : list Event) : list SftRecord :=
  match tr with
  | [] => []
  | FileWrite item :: tr' => item :: writes tr'
  | _ :: tr' => writes tr'
  end.



(** An event of the polling loop at [api_url]: a next-batch request or the
    wait of 1. *)
Definition is_poll_event (api_url : string) (e : Event) : Prop :=
  e = HttpGet (api_url ++ "/batch") \/ e = Sleep 1.

(** The waits among the events of a trace. *)
Definition is_sleep (e : Event) : bool :=
  match e with
  | Sleep _ => true
  | _ => false
  end.

(** An event of the acquisition loop of a run at [api_url]: a next-batch
    request, the wait of 1, a record written, or a progress update. *)
Definition is_loop_event (api_url : string) (e : Event) : Prop :=
  match e with
  | HttpGet url => url = (api_url ++ "/batch")%string
  | Sleep seconds => seconds = 1%Z
  | FileWrite _ => True
  | PbarUpdate _ => True
  | HttpPost _ _ => False
  | FileOpen _ _ => False
  end.

(** The computation has ended: it returned or raised. *)
Definition finished {A} (o : Outcome A) : bool :=
  match o with
  | Returned _ | Raised _ => true
  | Blocked | OutOfFuel => false
  end.

(** The mode the output file is opened in. *)
Definition open_mode (cfg : Config) (w : World) : FileMode :=
  if append_to_previous cfg
     && match disk w with Some _ => true | None => false end
  then ModeAppend else ModeWrite.

(** The outputs of [grab_group_data], group by group, under the criteria
    of a run. *)
Definition group_output (tok : Tokenizer) (cfg : Config) (group : Group)
  : result (list SftRecord) :=
  grab_group_data tok group (save_messages cfg) (save_top_n_per_group cfg)
    (allow_negative_scores cfg) (minimum_score_diff_max_min cfg).

(** The lines the output file starts the loop with: the old ones in append
    mode, none otherwise. *)
Definition kept_lines (cfg : Config) (w : World) : list SftRecord :=
  if append_to_previous cfg then lines_of (disk w) else [].

(** The run gets past the check of the output path. *)
Definition path_accepted (cfg : Config) (w : World) : Prop :=
  disk w = None \/ append_to_previous cfg = true.

(** [l[-1]] of a trace, if any. *)
Definition last_event (tr : list Event) : option Event :=
  nth_error (rev tr) 0.

Module MoreExamples.

(** A run that appends, asking for 2 records. *)
Definition cfg_append : Config :=
  {| filepath := "sft_data.jsonl";
     api_url := "http://localhost:8000";
     group_size := 2;
     cfg_max_token_len := 2048;
     tokenizer := "stub";
     save_messages := true;
     save_top_n_per_group := 3;
     num_seqs_to_save := 2;
     allow_negative_scores := false;
     minimum_score_diff_max_min := 0;
     append_to_previous := true;
     tasks_per_step := 64 |}.

(** A run that asks for nothing. *)
Definition cfg_zero : Config :=
  {| filepath := "sft_data.jsonl";
     api_url := "http://localhost:8000";
     group_size := 2;
     cfg_max_token_len := 2048;
     tokenizer := "stub";
     save_messages := true;
     save_top_n_per_group := 3;
     num_seqs_to_save := 0;
     allow_negative_scores := false;
     minimum_score_diff_max_min := 0;
     append_to_previous := false;
     tasks_per_step := 64 |}.

(** Three raw candidates, two of them with the same score. *)
Definition group_ties : Group :=
  {| messages := Some [Examples.chat_a; Examples.chat_b; Examples.chat_c];
     tokens := None;
     scores := Some [1; 2; 1]%Q |}.

(** Three raw candidates with one and the same score. *)
Definition group_flat : Group :=
  {| messages := Some [Examples.chat_a; Examples.chat_b; Examples.chat_c];
     tokens := None;
     scores := Some [2; 2; 2]%Q |}.


(** A group without a [messages] entry among the groups of a batch. *)
Definition group_no_messages : Group :=
  {| messages := None; tokens := None; scores := Some [1]%Q |}.

(** The answer after one "not ready" has no ["batch"] entry. *)
Definition world_malformed : World :=
  {| responses := [BatchNull; NoBatchKey; BatchList [Examples.group_of 3]];
     disk := None;
     buffer := None;
     trace := [] |}.

(** The second group of the only batch cannot be processed; the output
    file is open, with one line in it and one record in its buffer. *)
Definition world_bad_second_group : World :=
  {| responses := [BatchList [Examples.group_of 2; group_no_messages;
                              Examples.group_of 1]];
     disk := Some [RawMessageRecord Examples.chat_b 7];
     buffer := Some [RawMessageRecord Examples.chat_c 3];
     trace := [] |}.

End MoreExamples.

(* ================================================================= *)
(** * Properties *)

(** ** Prefixes *)

Lemma is_prefix_empty (s : string) : is_prefix "" s.
Proof. now exists s. Qed.

Lemma is_prefix_refl (s : string) : is_prefix s s.
Proof.
  exists "". induction s as [|a s IH]; simpl; [reflexivity | now f_equal].
Qed.

Lemma is_prefix_cons (a b : ascii) (p s : string) :
  is_prefix (String a p) (String b s) <-> a = b /\ is_prefix p s.
Proof.
  split.
  - intros [r Hr]. simpl in Hr. injection Hr as Hab Hs. split; [easy|].
    now exists r.
  - intros [-> [r ->]]. now exists r.
Qed.

Lemma is_prefix_of_empty (q : string) : is_prefix q "" -> q = "".
Proof.
  intros [r Hr]. destruct q; [reflexivity | discriminate Hr].
Qed.

Lemma is_prefix_trans (p q s : string) :
  is_prefix p q -> is_prefix q s -> is_prefix p s.
Proof.
  revert q s. induction p as [|a p IH]; intros q s Hpq Hqs.
  - apply is_prefix_empty.
  - destruct q as [|b q]; [apply is_prefix_of_empty in Hpq; discriminate|].
    destruct s as [|c s]; [apply is_prefix_of_empty in Hqs; discriminate|].
    apply is_prefix_cons in Hpq as [-> Hpq].
    apply is_prefix_cons in Hqs as [-> Hqs].
    apply is_prefix_cons. split; [reflexivity | now apply (IH q)].
Qed.

Lemma is_prefix_length (p s : string) :
  is_prefix p s -> String.length p <= String.length s.
Proof.
  revert s. induction p as [|a p IH]; intros s H; simpl; [lia|].
  destruct s as [|b s]; [apply is_prefix_of_empty in H; discriminate|].
  apply is_prefix_cons in H as [_ H]. apply IH in H. simpl. lia.
Qed.

Lemma startswith_spec (s p : string) :
  PyStr.startswith s p = true <-> is_prefix p s.
Proof.
  revert s. induction p as [|a p IH]; intros s; simpl.
  - split; [intros _; apply is_prefix_empty | reflexivity].
  - destruct s as [|b s].
    + split; [discriminate | intros H; apply is_prefix_of_empty in H;
                             discriminate].
    + rewrite andb_true_iff, Ascii.eqb_eq, IH, is_prefix_cons. tauto.
Qed.

Lemma startswith_false (s p : string) :
  PyStr.startswith s p = false <-> ~ is_prefix p s.
Proof.
  rewrite <- startswith_spec. destruct (PyStr.startswith s p); split;
    congruence.
Qed.

Lemma is_empty_spec (s : string) : PyStr.is_empty s = true <-> s = "".
Proof. destruct s; simpl; split; congruence. Qed.

Lemma drop_last_length (p : string) :
  String.length (PyStr.drop_last p) = pred (String.length p).
Proof.
  induction p as [|a p IH]; [reflexivity|].
  destruct p as [|b p]; [reflexivity|].
  change (PyStr.drop_last (String a (String b p)))
    with (String a (PyStr.drop_last (String b p))).
  simpl String.length in *. rewrite IH. reflexivity.
Qed.

Lemma drop_last_is_prefix (p : string) : is_prefix (PyStr.drop_last p) p.
Proof.
  induction p as [|a p IH]; [apply is_prefix_empty|].
  destruct p as [|b p]; [apply is_prefix_empty|].
  change (PyStr.drop_last (String a (String b p)))
    with (String a (PyStr.drop_last (String b p))).
  apply is_prefix_cons. now split.
Qed.

(** A proper prefix of [p] is a prefix of [p[:-1]]. *)
Lemma proper_prefix_drop_last (q p : string) :
  is_prefix q p -> q <> p -> is_prefix q (PyStr.drop_last p).
Proof.
  revert q. induction p as [|a p IH]; intros q Hq Hne.
  - apply is_prefix_of_empty in Hq. contradiction.
  - destruct q as [|c q]; [apply is_prefix_empty|].
    apply is_prefix_cons in Hq as [-> Hq].
    destruct p as [|b p].
    + apply is_prefix_of_empty in Hq. subst q. contradiction.
    + change (PyStr.drop_last (String a (String b p)))
        with (String a (PyStr.drop_last (String b p))).
      apply is_prefix_cons. split; [reflexivity|].
      apply IH; [assumption|]. intros ->. now apply Hne.
Qed.

(** ** The shrinking loop *)

(** What the loop ends with is the longest prefix of [prefix] that [s]
    starts with; the early [return ""] is taken only when no non-empty one
    exists. *)
Lemma shrink_spec (fuel : nat) (s prefix : string) :
  String.length prefix <= fuel ->
  match shrink fuel s prefix with
  | Some p' =>
      is_prefix p' prefix /\ is_prefix p' s /\
      forall q, is_prefix q prefix -> is_prefix q s -> is_prefix q p'
  | None => forall q, is_prefix q prefix -> is_prefix q s -> q = ""
  end.
Proof.
  revert prefix. induction fuel as [|fuel IH]; intros prefix Hlen.
  - destruct prefix; [|simpl in Hlen; lia]. simpl.
    repeat split; auto using is_prefix_empty.
  - simpl. destruct (PyStr.startswith s prefix) eqn:Hsw.
    + apply startswith_spec in Hsw.
      repeat split; auto using is_prefix_refl.
    + apply startswith_false in Hsw.
      assert (Hq : forall q, is_prefix q prefix -> is_prefix q s ->
                             is_prefix q (PyStr.drop_last prefix)).
      { intros q Hqp Hqs. apply proper_prefix_drop_last; [assumption|].
        intros ->. contradiction. }
      destruct (PyStr.is_empty (PyStr.drop_last prefix)) eqn:He.
      * apply is_empty_spec in He. intros q Hqp Hqs.
        specialize (Hq q Hqp Hqs). rewrite He in Hq.
        now apply is_prefix_of_empty.
      * specialize (IH (PyStr.drop_last prefix)).
        rewrite drop_last_length in IH.
        assert (Hl : pred (String.length prefix) <= fuel) by lia.
        specialize (IH Hl).
        destruct (shrink fuel s (PyStr.drop_last prefix)) as [p'|].
        -- destruct IH as (H1 & H2 & H3). repeat split.
           ++ eapply is_prefix_trans; [exact H1|apply drop_last_is_prefix].
           ++ exact H2.
           ++ intros q Hqp Hqs. apply H3; auto.
        -- intros q Hqp Hqs. apply IH; auto.
Qed.

(** The bound [String.length prefix] on the turns of the loop is never
    reached: any larger one gives the same result. *)
Lemma shrink_fuel_enough (fuel : nat) (s prefix : string) :
  String.length prefix <= fuel ->
  shrink fuel s prefix = shrink (String.length prefix) s prefix.
Proof.
  revert prefix. induction fuel as [|fuel IH]; intros prefix Hlen.
  - destruct prefix; [reflexivity | simpl in Hlen; lia].
  - destruct prefix as [|a prefix]; [reflexivity|].
    cbn [shrink String.length].
    destruct (PyStr.startswith s (String a prefix)); [reflexivity|].
    destruct (PyStr.is_empty (PyStr.drop_last (String a prefix)));
      [reflexivity|].
    pose proof (drop_last_length (String a prefix)) as Hd.
    cbn [String.length pred] in Hd, Hlen.
    rewrite (IH (PyStr.drop_last (String a prefix))) by lia.
    rewrite Hd. reflexivity.
Qed.

Lemma shrink_all_spec (rest : list string) (prefix : string) :
  let r := shrink_all prefix rest in
  is_prefix r prefix /\ common_prefix r rest /\
  forall q, is_prefix q prefix -> common_prefix q rest -> is_prefix q r.
Proof.
  revert prefix. induction rest as [|s rest IH]; intros prefix; simpl.
  - repeat split; auto using is_prefix_refl. constructor.
  - pose proof (shrink_spec (String.length prefix) s prefix (le_n _)) as Hs.
    destruct (shrink (String.length prefix) s prefix) as [p'|].
    + destruct Hs as (H1 & H2 & H3).
      destruct (IH p') as (I1 & I2 & I3). repeat split.
      * eapply is_prefix_trans; eassumption.
      * constructor; [eapply is_prefix_trans; eassumption | exact I2].
      * intros q Hqp Hqr. inversion Hqr; subst. apply I3; auto.
    + repeat split; auto using is_prefix_empty.
      * apply Forall_forall. intros; apply is_prefix_empty.
      * intros q Hqp Hqr. inversion Hqr; subst.
        rewrite (Hs q); auto using is_prefix_empty.
Qed.

(** The result is a common prefix, and every common prefix is a prefix of
    it. *)
Lemma find_common_prefix_greatest (s0 : string) (rest : list string) :
  common_prefix (find_common_prefix (s0 :: rest)) (s0 :: rest) /\
  forall q, common_prefix q (s0 :: rest) ->
            is_prefix q (find_common_prefix (s0 :: rest)).
Proof.
  simpl. destruct (shrink_all_spec rest s0) as (H1 & H2 & H3). split.
  - now constructor.
  - intros q Hq. inversion Hq; subst. now apply H3.
Qed.

(** C4: [find_common_prefix] returns the empty string for the empty list;
    for a non-empty list it returns a prefix of every string of the list
    that is at least as long as any other common prefix; and for a list
    whose strings share no non-empty prefix it returns the empty string. *)
Theorem find_common_prefix_longest (strings : list string) :
  find_common_prefix [] = "" /\
  (strings <> [] ->
   common_prefix (find_common_prefix strings) strings /\
   forall q, common_prefix q strings ->
             String.length q <= String.length (find_common_prefix strings)) /\
  ((forall q, common_prefix q strings -> q = "") ->
   find_common_prefix strings = "").
Proof.
  split; [reflexivity|]. destruct strings as [|s0 rest].
  - split; [intros H; now contradiction H | reflexivity].
  - destruct (find_common_prefix_greatest s0 rest) as [Hc Hmax]. split.
    + intros _. split; [exact Hc|].
      intros q Hq. apply is_prefix_length. now apply Hmax.
    + intros Hnone. now apply Hnone.
Qed.

Lemma find_common_prefix_longest_witness :
  let strings := ["abc"; "xbc"] in
  strings <> [] /\
  (forall q, common_prefix q strings -> q = "") /\
  common_prefix (find_common_prefix strings) strings /\
  find_common_prefix strings = "".
Proof.
  intros strings.
  assert (Hne : strings <> []) by discriminate.
  assert (Hnone : forall q, common_prefix q strings -> q = "").
  { intros q Hq. destruct q as [|c q]; [reflexivity|].
    inversion Hq as [|? ? Ha Hq']; subst. inversion Hq' as [|? ? Hx _]; subst.
    apply is_prefix_cons in Ha as [Ha _].
    apply is_prefix_cons in Hx as [Hx _]. subst c. discriminate Hx. }
  destruct (find_common_prefix_longest strings) as (_ & Hlong & Hempty).
  split; [exact Hne|]. split; [exact Hnone|].
  split; [exact (proj1 (Hlong Hne)) | exact (Hempty Hnone)].
Defined.

(* ================================================================= *)
(** ** Sorting and filtering *)

Lemma Qgtb_spec (x y : Q) : Qgtb x y = true <-> (y < x)%Q.
Proof.
  unfold Qgtb. rewrite negb_true_iff. split.
  - intros H. apply Qnot_le_lt. intros Hle.
    apply Qle_bool_iff in Hle. congruence.
  - intros H. destruct (Qle_bool x y) eqn:E; [|reflexivity].
    apply Qle_bool_iff in E. exfalso. now apply (Qlt_not_le y x).
Qed.

Lemma Qle_bool_false (x y : Q) : Qle_bool x y = false -> (y <= x)%Q.
Proof.
  intros H. apply Qlt_le_weak, Qgtb_spec. unfold Qgtb. now rewrite H.
Qed.

Section Sorting.

Context {A : Type}.

Lemma insert_desc_perm (p : Q * A) (l : list (Q * A)) :
  Permutation (p :: l) (insert_desc p l).
Proof.
  induction l as [|q l IH]; simpl; [reflexivity|].
  destruct (Qle_bool (fst q) (fst p)); [reflexivity|].
  rewrite perm_swap. now constructor.
Qed.

Lemma sorted_desc_perm (l : list (Q * A)) : Permutation l (sorted_desc l).
Proof.
  induction l as [|p l IH]; simpl; [constructor|].
  rewrite <- insert_desc_perm. now constructor.
Qed.

Lemma insert_desc_sorted (p : Q * A) (l : list (Q * A)) :
  StronglySorted (@ge_key A) l -> StronglySorted (@ge_key A) (insert_desc p l).
Proof.
  induction 1 as [|q l Hl IH Hq]; simpl.
  - repeat constructor.
  - destruct (Qle_bool (fst q) (fst p)) eqn:E.
    + apply Qle_bool_iff in E. constructor; [now constructor|].
      constructor; [exact E|].
      eapply Forall_impl; [|exact Hq]. intros r Hr. unfold ge_key in *.
      eapply Qle_trans; eassumption.
    + apply Qle_bool_false in E. constructor; [exact IH|].
      rewrite <- insert_desc_perm. now constructor.
Qed.

Lemma sorted_desc_sorted (l : list (Q * A)) :
  StronglySorted (@ge_key A) (sorted_desc l).
Proof.
  induction l as [|p l IH]; simpl; [constructor|].
  now apply insert_desc_sorted.
Qed.

End Sorting.

Lemma score_to_record (p : Q * ChatItem) : score (to_record p) = fst p.
Proof. destruct p as [s [x|pre c]]; reflexivity. Qed.

Lemma sorted_records (l : list (Q * ChatItem)) :
  sorted_by_score_desc (map to_record (sorted_desc l)).
Proof.
  unfold sorted_by_score_desc.
  pose proof (sorted_desc_sorted l) as H.
  induction H as [|p l' Hl IH Hp]; simpl; constructor; [exact IH|].
  apply Forall_map. eapply Forall_impl; [|exact Hp].
  intros q Hq. now rewrite !score_to_record.
Qed.

Lemma StronglySorted_filter {A} (R : A -> A -> Prop) (f : A -> bool)
    (l : list A) :
  StronglySorted R l -> StronglySorted R (filter f l).
Proof.
  induction 1 as [|x l Hl IH Hx]; simpl; [constructor|].
  destruct (f x); [|exact IH]. constructor; [exact IH|].
  apply Forall_forall. intros y Hy. apply filter_In in Hy as [Hy _].
  rewrite Forall_forall in Hx. now apply Hx.
Qed.

Lemma firstn_In {A} (n : nat) (l : list A) (x : A) :
  In x (firstn n l) -> In x l.
Proof.
  intros H. rewrite <- (firstn_skipn n l). apply in_or_app. now left.
Qed.

Lemma StronglySorted_firstn {A} (R : A -> A -> Prop) (n : nat) (l : list A) :
  StronglySorted R l -> StronglySorted R (firstn n l).
Proof.
  intros H. revert n. induction H as [|x l Hl IH Hx]; intros [|n]; simpl;
    try constructor; [apply IH|].
  apply Forall_forall. intros y Hy. apply firstn_In in Hy.
  rewrite Forall_forall in Hx. now apply Hx.
Qed.

Lemma py_take_firstn {A} (n : Z) (l : list A) :
  exists k, py_take n l = firstn k l.
Proof. unfold py_take. destruct (0 <=? n)%Z; eauto. Qed.

Lemma py_take_incl {A} (n : Z) (l : list A) (x : A) :
  In x (py_take n l) -> In x l.
Proof.
  destruct (py_take_firstn n l) as [k ->]. apply firstn_In.
Qed.

Lemma py_take_length {A} (n : Z) (l : list A) :
  List.length (py_take n l) <= List.length l.
Proof.
  destruct (py_take_firstn n l) as [k ->]. rewrite length_firstn. lia.
Qed.

Lemma Forall_py_take {A} (P : A -> Prop) (n : Z) (l : list A) :
  Forall P l -> Forall P (py_take n l).
Proof.
  rewrite !Forall_forall. intros H x Hx. apply H.
  now apply py_take_incl in Hx.
Qed.

Lemma Forall_filter_keep {A} (P : A -> Prop) (f : A -> bool) (l : list A) :
  Forall P l -> Forall P (filter f l).
Proof.
  rewrite !Forall_forall. intros H x Hx. apply H.
  now apply filter_In in Hx.
Qed.

Lemma Forall_filter_true {A} (f : A -> bool) (l : list A) :
  Forall (fun x => f x = true) (filter f l).
Proof. apply Forall_forall. intros x Hx. now apply filter_In in Hx. Qed.

(** [min_score] is the least of a non-empty list of scores, and one of
    them. *)
Lemma min_from_le (l : list Q) (m : Q) :
  (min_from m l <= m)%Q /\ Forall (fun s => (min_from m l <= s)%Q) l.
Proof.
  revert m. induction l as [|x l IH]; intros m; simpl.
  - split; [apply Qle_refl | constructor].
  - destruct (IH (if Qgtb m x then x else m)) as [H1 H2].
    destruct (Qgtb m x) eqn:E.
    + apply Qgtb_spec in E. split.
      * eapply Qle_trans; [exact H1 | now apply Qlt_le_weak].
      * now constructor.
    + unfold Qgtb in E. apply negb_false_iff, Qle_bool_iff in E. split.
      * exact H1.
      * constructor; [eapply Qle_trans; eassumption | exact H2].
Qed.

Lemma min_from_In (l : list Q) (m : Q) : In (min_from m l) (m :: l).
Proof.
  revert m. induction l as [|x l IH]; intros m; simpl; [now left|].
  specialize (IH (if Qgtb m x then x else m)).
  destruct (Qgtb m x); destruct IH as [IH|IH]; auto.
Qed.

Lemma min_score_least (scores : list Q) :
  Forall (fun s => (min_score scores <= s)%Q) scores /\
  (scores <> [] -> In (min_score scores) scores).
Proof.
  destruct scores as [|s rest]; simpl.
  - split; [constructor | intros H; now contradiction H].
  - destruct (min_from_le rest s) as [H1 H2]. split.
    + now constructor.
    + intros _. apply min_from_In.
Qed.

(** What [select] guarantees of its output. *)
Lemma select_spec (scores : list Q) (chats : list ChatItem) (n : Z)
    (allow : bool) (t : Q) :
  let out := select scores chats n allow t in
  sorted_by_score_desc out /\
  (allow = false -> Forall (fun x => (0 < score x)%Q) out) /\
  ((0 < t)%Q ->
   Forall (fun x => (t < score x - min_score scores)%Q) out).
Proof.
  unfold select.
  set (l0 := map to_record (sorted_desc (combine scores chats))).
  set (l1 := if negb allow then filter (fun x => Qgtb (score x) 0) l0
             else l0).
  set (l2 := if Qgtb t 0
             then filter (fun x => Qgtb (score x - min_score scores) t) l1
             else l1).
  cbv zeta.
  assert (S0 : sorted_by_score_desc l0) by apply sorted_records.
  assert (S1 : sorted_by_score_desc l1).
  { unfold l1. destruct (negb allow); [now apply StronglySorted_filter|easy]. }
  assert (S2 : sorted_by_score_desc l2).
  { unfold l2. destruct (Qgtb t 0); [now apply StronglySorted_filter|easy]. }
  split; [|split].
  - destruct (py_take_firstn n l2) as [k ->].
    now apply StronglySorted_firstn.
  - intros ->. apply Forall_py_take. unfold l2.
    assert (P1 : Forall (fun x => (0 < score x)%Q) l1).
    { unfold l1. simpl. eapply Forall_impl;
        [|apply (Forall_filter_true (fun x => Qgtb (score x) 0))].
      intros x Hx. now apply Qgtb_spec in Hx. }
    destruct (Qgtb t 0); [now apply Forall_filter_keep | exact P1].
  - intros Ht. apply Forall_py_take. unfold l2.
    apply Qgtb_spec in Ht. rewrite Ht.
    eapply Forall_impl;
      [|apply (Forall_filter_true
                 (fun x => Qgtb (score x - min_score scores) t))].
    intros x Hx. now apply Qgtb_spec in Hx.
Qed.

(** A group is processed exactly when its [chats] can be built and it has a
    [scores] entry; the output is then the selection. *)
Lemma grab_group_data_run (tok : Tokenizer) (g : Group) (save_msgs : bool)
    (n : Z) (allow : bool) (t : Q) (chats : list ChatItem) (ss : list Q) :
  group_chats tok g save_msgs = Ok chats ->
  scores g = Some ss ->
  grab_group_data tok g save_msgs n allow t
  = Ok (select ss chats n allow t).
Proof.
  intros Hc Hs. unfold grab_group_data, get_scores. now rewrite Hc, Hs.
Qed.

Lemma grab_group_data_ok_inv (tok : Tokenizer) (g : Group) (save_msgs : bool)
    (n : Z) (allow : bool) (t : Q) (out : list SftRecord) :
  grab_group_data tok g save_msgs n allow t = Ok out ->
  exists chats ss,
    group_chats tok g save_msgs = Ok chats /\
    scores g = Some ss /\
    out = select ss chats n allow t.
Proof.
  unfold grab_group_data, get_scores. intros H.
  destruct (group_chats tok g save_msgs) as [chats|e]; [|discriminate H].
  destruct (scores g) as [ss|]; [|discriminate H].
  injection H as <-. now exists chats, ss.
Qed.



(* ================================================================= *)
(** ** Pairing of scores and candidates *)

Lemma in_combine_nth_error {A B} (l : list A) (l' : list B) (a : A) (b : B) :
  In (a, b) (combine l l') ->
  exists i, nth_error l i = Some a /\ nth_error l' i = Some b.
Proof.
  revert l'. induction l as [|x l IH]; intros [|y l'] H; simpl in H;
    try contradiction.
  destruct H as [H|H].
  - injection H as -> ->. now exists 0.
  - destruct (IH _ H) as [i Hi]. now exists (S i).
Qed.

(** Every record of the selection comes from a pair of the zipped
    sequence. *)
Lemma select_In (scores : list Q) (chats : list ChatItem) (n : Z)
    (allow : bool) (t : Q) (r : SftRecord) :
  In r (select scores chats n allow t) ->
  exists p, In p (combine scores chats) /\ r = to_record p.
Proof.
  unfold select. intros H. apply py_take_incl in H.
  assert (H1 : In r (if negb allow
                     then filter (fun x => Qgtb (score x) 0)
                            (map to_record
                               (sorted_desc (combine scores chats)))
                     else map to_record
                            (sorted_desc (combine scores chats)))).
  { destruct (Qgtb t 0); [now apply filter_In in H|exact H]. }
  assert (H0 : In r (map to_record (sorted_desc (combine scores chats)))).
  { destruct (negb allow); [now apply filter_In in H1|exact H1]. }
  apply in_map_iff in H0 as (p & <- & Hp). exists p. split; [|reflexivity].
  eapply Permutation_in; [symmetry; apply sorted_desc_perm | exact Hp].
Qed.

Lemma select_length (scores : list Q) (chats : list ChatItem) (n : Z)
    (allow : bool) (t : Q) :
  List.length (select scores chats n allow t)
  <= Nat.min (List.length scores) (List.length chats).
Proof.
  unfold select. etransitivity; [apply py_take_length|].
  assert (L0 : List.length
                 (map to_record (sorted_desc (combine scores chats)))
               = Nat.min (List.length scores) (List.length chats)).
  { rewrite length_map, <- (Permutation_length (sorted_desc_perm _)).
    apply length_combine. }
  etransitivity.
  { destruct (Qgtb t 0); [apply filter_length_le | apply le_n]. }
  etransitivity.
  { destruct (negb allow); [apply filter_length_le | apply le_n]. }
  now rewrite L0.
Qed.



(* ================================================================= *)
(** ** The split at the common prefix *)

Lemma find_common_prefix_none (strings : list string) :
  (forall q, common_prefix q strings -> q = "") ->
  find_common_prefix strings = "".
Proof.
  destruct strings as [|s0 rest]; [reflexivity|].
  intros H. apply H. apply find_common_prefix_greatest.
Qed.

Lemma split_chat_empty_prefix (chat : string) :
  split_chat "" chat = Err (ValueError "empty separator").
Proof. reflexivity. Qed.

(** C5: in decoded-text mode the texts ["The cat sat"] and ["The cat ran"]
    have the common prefix ["The cat "] and the completions ["sat"] and
    ["ran"]; for the texts ["abab"] and ["abc"] the common prefix is ["ab"]
    and the text after its first occurrence in ["abab"] is ["ab"], while the
    record produced has the empty completion: [split] cuts at every
    occurrence of the prefix, and the element taken ends at the second. *)
Theorem split_completion_ends_at_second_occurrence :
  find_common_prefix ["The cat sat"; "The cat ran"] = "The cat " /\
  grab_group_data Examples.char_tok Examples.group_cats false 3 false 0
    = Ok [DecodedTextRecord "The cat " "ran" (3 # 4);
          DecodedTextRecord "The cat " "sat" (1 # 2)] /\
  find_common_prefix ["abab"; "abc"] = "ab" /\
  remainder_after_first_occurrence "ab" "abab" = "ab" /\
  remainder_after_first_occurrence "ab" "abc" = "c" /\
  grab_group_data Examples.char_tok Examples.group_abab false 3 false 0
    = Ok [DecodedTextRecord "ab" "c" (3 # 4);
          DecodedTextRecord "ab" "" (1 # 2)].
Proof. repeat split. Qed.

(** C6: there is a group in decoded-text mode on which [grab_group_data]
    raises; it does so whenever the decoded texts share no non-empty
    prefix: the common prefix is then empty and [split] is called with an
    empty separator, a [ValueError]; and the error comes out of a run of
    [sft_data_grabber]. *)
Theorem grab_group_data_raises_on_empty_prefix :
  (exists g,
     grab_group_data Examples.char_tok g false 3 false 0
     = Err (ValueError "empty separator")) /\
  (forall tok g n allow t toks,
     tokens g = Some toks ->
     (forall q, common_prefix q (map (decode tok) toks) -> q = "") ->
     find_common_prefix (map (decode tok) toks) = "" /\
     grab_group_data tok g false n allow t
     = Err (ValueError "empty separator")) /\
  fst (sft_data_grabber Examples.from_pretrained Examples.cfg5_text
         Examples.world_no_prefix)
  = Raised (ValueError "empty separator").
Proof.
  split; [now exists Examples.group_no_prefix|]. split; [|reflexivity].
  intros tok g n allow t toks Htoks Hnone.
  pose proof (find_common_prefix_none _ Hnone) as Hp. split; [exact Hp|].
  unfold grab_group_data, group_chats, get_tokens. rewrite Htoks. simpl.
  rewrite Hp. destruct toks as [|tk toks]; [|reflexivity].
  specialize (Hnone "a" (Forall_nil _)). discriminate Hnone.
Qed.

Lemma grab_group_data_raises_on_empty_prefix_witness :
  tokens Examples.group_no_prefix
    = Some [Examples.encode "ab"; Examples.encode "xy"] /\
  (forall q, common_prefix q ["ab"; "xy"] -> q = "") /\
  grab_group_data Examples.char_tok Examples.group_no_prefix false 3 false 0
    = Err (ValueError "empty separator").
Proof.
  assert (Htoks : tokens Examples.group_no_prefix
                  = Some [Examples.encode "ab"; Examples.encode "xy"])
    by reflexivity.
  assert (Hnone : forall q, common_prefix q ["ab"; "xy"] -> q = "").
  { intros q Hq. destruct q as [|c q]; [reflexivity|].
    inversion Hq as [|? ? Ha Hq']; subst. inversion Hq' as [|? ? Hx _]; subst.
    apply is_prefix_cons in Ha as [Ha _].
    apply is_prefix_cons in Hx as [Hx _]. subst c. discriminate Hx. }
  split; [exact Htoks|]. split; [exact Hnone|].
  exact (proj2 (proj1 (proj2 grab_group_data_raises_on_empty_prefix)
                  Examples.char_tok Examples.group_no_prefix 3%Z false 0%Q
                  _ Htoks Hnone)).
Defined.

(* ================================================================= *)
(** ** Registration *)

Lemma register_to_api_run (group_size max_len : Z) (api_url : string)
    (steps tasks_per_step : Z) (w : World) :
  register_to_api group_size max_len api_url steps tasks_per_step w
  = (Returned tt,
     {| responses := responses w;
        disk := disk w;
        buffer := buffer w;
        trace := trace w
                 ++ [HttpGet (api_url ++ "/reset_data");
                     HttpPost (api_url ++ "/register")
                       {| wandb_group := "test";
                          wandb_project := "test";
                          batch_size := group_size * tasks_per_step;
                          max_token_len := max_len;
                          checkpoint_dir := "checkpoints";
                          save_checkpoint_interval := 10;
                          starting_step := 0;
                          num_steps := steps * 2 |}] |}).
Proof.
  unfold register_to_api, bind, http_get, http_post, emit. simpl.
  rewrite <- app_assoc. reflexivity.
Qed.

(** C9: [register_to_api] issues the reset request, then the registration
    request, whose body carries [batch_size = group_size * tasks_per_step]
    and [num_steps] twice the argument. *)
Theorem register_to_api_requests (group_size max_len : Z)
    (api_url : string) (steps tasks_per_step : Z) (w : World) :
  exists body,
    register_to_api group_size max_len api_url steps tasks_per_step w
    = (Returned tt,
       {| responses := responses w;
          disk := disk w;
          buffer := buffer w;
          trace := trace w ++ [HttpGet (api_url ++ "/reset_data");
                               HttpPost (api_url ++ "/register") body] |}) /\
    batch_size body = (group_size * tasks_per_step)%Z /\
    num_steps body = (2 * steps)%Z /\
    max_token_len body = max_len.
Proof.
  eexists. split; [apply register_to_api_run|]. split; [reflexivity|].
  split; [exact (Z.mul_comm steps 2) | reflexivity].
Qed.

(* ================================================================= *)
(** ** Polling *)

Lemma poll_first_non_null (api_url : string) (k : nat) (b : list Group)
    (rest : list BatchResponse) (tr : list Event) :
  poll api_url (repeat BatchNull k ++ BatchList b :: rest) tr
  = (Returned b,
     (rest, tr ++ not_ready_trace api_url k ++ [HttpGet (api_url ++ "/batch")])).
Proof.
  revert tr. induction k as [|k IH]; intros tr; simpl.
  - reflexivity.
  - rewrite IH. rewrite <- !app_assoc. reflexivity.
Qed.

Lemma poll_returned_inv (api_url : string) (rs : list BatchResponse)
    (tr : list Event) (b : list Group) (rs' : list BatchResponse)
    (tr' : list Event) :
  poll api_url rs tr = (Returned b, (rs', tr')) ->
  exists k, rs = repeat BatchNull k ++ BatchList b :: rs'.
Proof.
  revert tr. induction rs as [|r rs IH]; intros tr H; simpl in H.
  - discriminate H.
  - destruct r as [| |batch].
    + discriminate H.
    + apply IH in H as [k ->]. now exists (S k).
    + injection H as -> -> _. now exists 0.
Qed.

(** C8, refuted as stated: an answer whose batch is the empty list is
    returned as it is. *)
Lemma check_for_batch_returns_empty_batch :
  check_for_batch "http://localhost:8000" Examples.world_empty_batch
  = (Returned [],
     {| responses := [];
        disk := None;
        buffer := None;
        trace := [HttpGet "http://localhost:8000/batch"] |}).
Proof. reflexivity. Qed.

(** C8, amended: [check_for_batch] returns the first batch that is not
    null, be it empty or not; every answer "not ready" before it is followed
    by a wait of 1 and another request, never by a return or an error; and
    whatever it returns is that first non-null batch. *)
Theorem check_for_batch_first_non_null (api_url : string) (w : World)
    (k : nat) (b : list Group) (rest : list BatchResponse) :
  responses w = repeat BatchNull k ++ BatchList b :: rest ->
  check_for_batch api_url w
  = (Returned b,
     {| responses := rest;
        disk := disk w;
        buffer := buffer w;
        trace := trace w ++ not_ready_trace api_url k
                 ++ [HttpGet (api_url ++ "/batch")] |}) /\
  (forall w0 b0 w0',
     check_for_batch api_url w0 = (Returned b0, w0') ->
     exists k0,
       responses w0 = repeat BatchNull k0 ++ BatchList b0 :: responses w0').
Proof.
  intros Hr. split.
  - unfold check_for_batch. rewrite Hr, poll_first_non_null. reflexivity.
  - intros w0 b0 w0' H. unfold check_for_batch in H.
    destruct (poll api_url (responses w0) (trace w0)) as [o [rs tr]] eqn:Hp.
    injection H as -> <-. simpl. eapply poll_returned_inv. exact Hp.
Qed.

Lemma check_for_batch_first_non_null_witness :
  responses Examples.world_not_ready_twice
    = repeat BatchNull 2 ++ BatchList [Examples.group_of 3] :: [] /\
  check_for_batch "http://localhost:8000" Examples.world_not_ready_twice
  = (Returned [Examples.group_of 3],
     {| responses := [];
        disk := None;
        buffer := None;
        trace := [HttpGet "http://localhost:8000/batch"; Sleep 1;
                  HttpGet "http://localhost:8000/batch"; Sleep 1;
                  HttpGet "http://localhost:8000/batch"] |}).
Proof.
  split; [reflexivity|].
  exact (proj1 (check_for_batch_first_non_null "http://localhost:8000"
                  Examples.world_not_ready_twice 2 [Examples.group_of 3] []
                  eq_refl)).
Defined.

(* ================================================================= *)
(** ** The orchestrator *)

Lemma extends_ret {A} (a : A) : extends_trace (ret a).
Proof. intros w. exists []. simpl. now rewrite app_nil_r. Qed.

Lemma extends_raise {A} (e : Error) : extends_trace (@raise A e).
Proof. intros w. exists []. simpl. now rewrite app_nil_r. Qed.

Lemma extends_bind {A B} (c : IO A) (k : A -> IO B) :
  extends_trace c -> (forall a, extends_trace (k a)) ->
  extends_trace (bind c k).
Proof.
  intros Hc Hk w. unfold bind. destruct (Hc w) as [m1 H1].
  destruct (c w) as [[a|e| |] w1]; simpl in H1; eauto.
  destruct (Hk a w1) as [m2 H2]. exists (m1 ++ m2).
  now rewrite H2, H1, app_assoc.
Qed.

Lemma bind_returned_trace {A B} (c : IO A) (k : A -> IO B) (w : World)
    (a : A) (w1 : World) :
  c w = (Returned a, w1) -> extends_trace (k a) ->
  exists more, trace (snd (bind c k w)) = trace w1 ++ more.
Proof. intros Hc Hk. unfold bind. rewrite Hc. apply Hk. Qed.

Lemma extends_emit (e : Event) : extends_trace (emit e).
Proof. intros w. now exists [e]. Qed.

Lemma extends_jsonl_write (item : SftRecord) :
  extends_trace (jsonl_write item).
Proof. intros w. now exists [FileWrite item]. Qed.

Lemma extends_open_file (path : string) (mode : FileMode) :
  extends_trace (open_file path mode).
Proof. intros w. now exists [FileOpen path mode]. Qed.

Lemma extends_path_exists : extends_trace path_exists.
Proof. intros w. exists []. simpl. now rewrite app_nil_r. Qed.

Lemma poll_extends (api_url : string) (rs : list BatchResponse)
    (tr : list Event) :
  exists more, snd (snd (poll api_url rs tr)) = tr ++ more.
Proof.
  revert tr. induction rs as [|r rs IH]; intros tr; simpl.
  - eauto.
  - destruct r; simpl; eauto.
    destruct (IH ((tr ++ [HttpGet (api_url ++ "/batch")]) ++ [Sleep 1]))
      as [m Hm].
    rewrite Hm, <- !app_assoc. eauto.
Qed.

Lemma extends_check_for_batch (api_url : string) :
  extends_trace (check_for_batch api_url).
Proof.
  intros w. unfold check_for_batch.
  destruct (poll_extends api_url (responses w) (trace w)) as [m Hm].
  destruct (poll api_url (responses w) (trace w)) as [o [rs tr]].
  now exists m.
Qed.

Lemma extends_write_items (items : list SftRecord) (count : Z) :
  extends_trace (write_items items count).
Proof.
  revert count. induction items as [|item items IH]; intros count; simpl.
  - apply extends_ret.
  - apply extends_bind; [apply extends_jsonl_write | intros _; apply IH].
Qed.

Lemma extends_write_groups (tok : Tokenizer) (cfg : Config)
    (data : list Group) (count : Z) :
  extends_trace (write_groups tok cfg data count).
Proof.
  revert count. induction data as [|g data IH]; intros count; simpl.
  - apply extends_ret.
  - destruct (grab_group_data _ _ _ _ _ _); [|apply extends_raise].
    apply extends_bind; [apply extends_write_items | intros c; apply IH].
Qed.

Lemma extends_grab_batch (tok : Tokenizer) (cfg : Config) :
  extends_trace (grab_batch tok cfg).
Proof.
  apply extends_bind; [apply extends_check_for_batch|].
  intros data. apply extends_write_groups.
Qed.

Lemma extends_grab_loop (fuel : nat) (tok : Tokenizer) (cfg : Config)
    (total_count : Z) :
  extends_trace (grab_loop fuel tok cfg total_count).
Proof.
  revert total_count. induction fuel as [|fuel IH]; intros total_count;
    simpl; destruct (total_count <? num_seqs_to_save cfg)%Z;
    try apply extends_ret.
  - intros w. exists []. simpl. now rewrite app_nil_r.
  - apply extends_bind; [apply extends_grab_batch|]. intros batch_count.
    apply extends_bind; [apply extends_emit | intros _; apply IH].
Qed.

Lemma extends_finally_close {A} (c : IO A) :
  extends_trace c -> extends_trace (finally c close_file).
Proof.
  intros Hc w. unfold finally. destruct (Hc w) as [more Hm].
  destruct (c w) as [[a|e| |] w1]; exists more; exact Hm.
Qed.

Lemma sft_data_grabber_fuel_handshake (from_pretrained : string -> Tokenizer)
    (fuel : nat) (cfg : Config) (w : World) :
  exists more,
    trace (snd (sft_data_grabber_fuel from_pretrained fuel cfg w))
    = trace w ++ handshake cfg ++ more.
Proof.
  unfold sft_data_grabber_fuel.
  destruct (bind_returned_trace
              (register_to_api (group_size cfg) (cfg_max_token_len cfg)
                 (api_url cfg) 0 (tasks_per_step cfg))
              (fun _ =>
                 file_exists <- path_exists ;;
                 if file_exists && negb (append_to_previous cfg)
                 then raise (ValueError
                        ("File '" ++ filepath cfg
                         ++ "' already exists and --append-to-previous is False."))
                 else
                   file_exists <- path_exists ;;
                   open_file (filepath cfg)
                     (if append_to_previous cfg && file_exists
                      then ModeAppend else ModeWrite) ;;
                   finally
                     (grab_loop fuel (from_pretrained (tokenizer cfg)) cfg 0)
                     close_file)
              w tt _ (register_to_api_run _ _ _ _ _ w)) as [more Hm].
  - apply extends_bind; [apply extends_path_exists|]. intros b.
    destruct (b && negb (append_to_previous cfg)); [apply extends_raise|].
    apply extends_bind; [apply extends_path_exists|]. intros b'.
    apply extends_bind; [apply extends_open_file|]. intros _.
    apply extends_finally_close, extends_grab_loop.
  - exists more. cbv zeta. rewrite Hm. cbn [trace].
    now rewrite <- app_assoc.
Qed.

(** C10: in every run the registration request carries [num_steps = 0],
    whatever [num_seqs_to_save] is: the handshake opens the trace of the
    run, and its body is built from [total_count], which is 0 then. *)
Theorem sft_data_grabber_registers_zero_steps
    (from_pretrained : string -> Tokenizer) (cfg : Config) (w : World) :
  exists body more,
    trace (snd (sft_data_grabber from_pretrained cfg w))
    = trace w ++ [HttpGet (api_url cfg ++ "/reset_data");
                  HttpPost (api_url cfg ++ "/register") body] ++ more /\
    num_steps body = 0%Z /\
    batch_size body = (group_size cfg * tasks_per_step cfg)%Z.
Proof.
  destruct (sft_data_grabber_fuel_handshake from_pretrained
              (S (List.length (responses w))) cfg w) as [more Hm].
  exists (run_register_body cfg), more. split; [exact Hm|]. now split.
Qed.

(** C1, refuted as stated: with the output file there and
    [append_to_previous] false the run raises the configuration error, and
    the requests issued by then are the reset and the registration. *)
Lemma sft_data_grabber_registers_before_check :
  disk Examples.world_file_exists <> None /\
  append_to_previous Examples.cfg5 = false /\
  fst (sft_data_grabber Examples.from_pretrained Examples.cfg5
         Examples.world_file_exists)
  = Raised (ValueError
      "File 'sft_data.jsonl' already exists and --append-to-previous is False.")
  /\
  filter is_request
    (trace (snd (sft_data_grabber Examples.from_pretrained Examples.cfg5
                   Examples.world_file_exists)))
  = [HttpGet "http://localhost:8000/reset_data";
     HttpPost "http://localhost:8000/register"
       (run_register_body Examples.cfg5)].
Proof. repeat split. discriminate. Qed.

(** C1, amended: when the output path exists and [append_to_previous] is
    false, the run fails with the configuration error before any batch is
    requested and before the output file is opened or written; the reset
    and the registration request have been issued by then, and nothing
    else. *)
Theorem sft_data_grabber_existing_file_fails
    (from_pretrained : string -> Tokenizer) (cfg : Config) (w : World)
    (lines : list SftRecord) :
  disk w = Some lines ->
  append_to_previous cfg = false ->
  sft_data_grabber from_pretrained cfg w
  = (Raised (ValueError ("File '" ++ filepath cfg
               ++ "' already exists and --append-to-previous is False.")),
     {| responses := responses w;
        disk := disk w;
        buffer := buffer w;
        trace := trace w ++ handshake cfg |}).
Proof.
  intros Hd Ha.
  unfold sft_data_grabber, sft_data_grabber_fuel, register_to_api, http_get,
    http_post.
  unfold bind at 1 2. unfold emit at 1 2. cbn [trace responses disk].
  unfold bind at 1. unfold path_exists at 1. cbn [trace responses disk].
  rewrite Hd, Ha. cbn [andb negb]. unfold raise, handshake.
  rewrite <- app_assoc. reflexivity.
Qed.

Lemma sft_data_grabber_existing_file_fails_witness :
  disk Examples.world_file_exists
    = Some [RawMessageRecord Examples.chat_a 1] /\
  append_to_previous Examples.cfg5 = false /\
  sft_data_grabber Examples.from_pretrained Examples.cfg5
    Examples.world_file_exists
  = (Raised (ValueError
       "File 'sft_data.jsonl' already exists and --append-to-previous is False."),
     {| responses := responses Examples.world_file_exists;
        disk := Some [RawMessageRecord Examples.chat_a 1];
        buffer := None;
        trace := handshake Examples.cfg5 |}).
Proof.
  split; [reflexivity|]. split; [reflexivity|].
  exact (sft_data_grabber_existing_file_fails Examples.from_pretrained
           Examples.cfg5 Examples.world_file_exists
           [RawMessageRecord Examples.chat_a 1] eq_refl eq_refl).
Defined.

(** C7: with [num_seqs_to_save = 5] and batches of 3 then 4 selected
    records, the loop stops after the second batch with a total of 7, all 7
    records are written, and the increments reported to the progress bar are
    2 and then -2: the remaining need is computed after the batch has been
    added to the total. *)
Theorem sft_data_grabber_progress_3_then_4 :
  let run := sft_data_grabber Examples.from_pretrained Examples.cfg5
               Examples.world_3_then_4 in
  fst run = Returned 7%Z /\
  responses (snd run) = [] /\
  disk (snd run) = Some (repeat (RawMessageRecord Examples.chat_a 1) 7) /\
  List.length (filter is_request (trace (snd run))) = 4 /\
  pbar_updates (trace (snd run)) = [2; -2]%Z.
Proof. repeat split. Qed.

(* ================================================================= *)
(** ** The loop bound is never reached *)

Lemma poll_not_out_of_fuel (api_url : string) (rs : list BatchResponse)
    (tr : list Event) :
  fst (poll api_url rs tr) <> OutOfFuel.
Proof.
  revert tr. induction rs as [|r rs IH]; intros tr; simpl; [discriminate|].
  destruct r; simpl; try discriminate. apply IH.
Qed.

Lemma poll_consumes (api_url : string) (rs : list BatchResponse)
    (tr : list Event) (b : list Group) (rs' : list BatchResponse)
    (tr' : list Event) :
  poll api_url rs tr = (Returned b, (rs', tr')) ->
  List.length rs' < List.length rs.
Proof.
  intros H. apply poll_returned_inv in H as [k ->].
  rewrite length_app. simpl. lia.
Qed.

Lemma write_items_run (items : list SftRecord) (count : Z) (w : World) :
  fst (write_items items count w)
  = Returned (count + Z.of_nat (List.length items))%Z /\
  responses (snd (write_items items count w)) = responses w.
Proof.
  revert count w. induction items as [|item items IH]; intros count w.
  - simpl. split; [f_equal; lia | reflexivity].
  - cbn [write_items]. unfold bind, jsonl_write.
    match goal with
    | |- context [write_items items ?c ?w'] =>
        destruct (IH c w') as [H1 H2]
    end.
    rewrite H1, H2. split; [|reflexivity].
    f_equal. cbn [List.length]. lia.
Qed.

Lemma write_groups_run (tok : Tokenizer) (cfg : Config) (data : list Group)
    (count : Z) (w : World) :
  fst (write_groups tok cfg data count w) <> OutOfFuel /\
  responses (snd (write_groups tok cfg data count w)) = responses w.
Proof.
  revert count w. induction data as [|g data IH]; intros count w; simpl.
  - split; [discriminate | reflexivity].
  - destruct (grab_group_data _ _ _ _ _ _) as [items|e];
      [|split; [discriminate | reflexivity]].
    unfold bind. destruct (write_items_run items count w) as [H1 H2].
    destruct (write_items items count w) as [o w1]. simpl in H1, H2.
    subst o. rewrite <- H2. apply IH.
Qed.

Lemma grab_batch_run (tok : Tokenizer) (cfg : Config) (w : World) :
  fst (grab_batch tok cfg w) <> OutOfFuel /\
  forall n w', grab_batch tok cfg w = (Returned n, w') ->
               List.length (responses w') < List.length (responses w).
Proof.
  unfold grab_batch, bind, check_for_batch.
  pose proof (poll_not_out_of_fuel (api_url cfg) (responses w) (trace w))
    as Hf.
  destruct (poll (api_url cfg) (responses w) (trace w)) as [o [rs tr]] eqn:Hp.
  simpl in Hf. destruct o as [data|e| |]; simpl;
    try (split; [discriminate | discriminate]); [|contradiction].
  apply poll_consumes in Hp.
  match goal with
  | |- context [write_groups tok cfg data 0%Z ?w1] =>
      destruct (write_groups_run tok cfg data 0%Z w1) as [H1 H2];
      destruct (write_groups tok cfg data 0%Z w1) as [o w2]
  end.
  simpl in H1, H2. split; [exact H1|].
  intros n w' H. injection H as -> ->. rewrite H2. exact Hp.
Qed.

Lemma grab_loop_fuel_enough (fuel : nat) (tok : Tokenizer) (cfg : Config)
    (total_count : Z) (w : World) :
  List.length (responses w) < fuel ->
  fst (grab_loop fuel tok cfg total_count w) <> OutOfFuel.
Proof.
  revert total_count w. induction fuel as [|fuel IH];
    intros total_count w Hlen; [lia|].
  cbn [grab_loop]. destruct (total_count <? num_seqs_to_save cfg)%Z;
    [|discriminate].
  unfold bind at 1. destruct (grab_batch_run tok cfg w) as [H1 H2].
  destruct (grab_batch tok cfg w) as [[n|e| |] w1]; simpl in H1;
    try discriminate; [|contradiction].
  specialize (H2 n w1 eq_refl).
  unfold bind, pbar_update, emit. apply IH. simpl. lia.
Qed.

(** Leaving the [with] block does not change how its body ended. *)
Lemma finally_outcome {A} (c : IO A) (cleanup : IO unit) (w : World) :
  fst (finally c cleanup w) = fst (c w).
Proof. unfold finally. now destruct (c w) as [[a|e| |] w1]. Qed.

(** A run never ends for want of loop turns. *)
Lemma sft_data_grabber_fuel_enough (from_pretrained : string -> Tokenizer)
    (cfg : Config) (w : World) :
  fst (sft_data_grabber from_pretrained cfg w) <> OutOfFuel.
Proof.
  unfold sft_data_grabber, sft_data_grabber_fuel.
  unfold bind at 1. rewrite register_to_api_run.
  unfold bind at 1. unfold path_exists at 1. cbn [disk].
  destruct ((match disk w with Some _ => true | None => false end)
            && negb (append_to_previous cfg)); [discriminate|].
  unfold bind at 1. unfold path_exists at 1. cbn [disk].
  unfold bind at 1. unfold open_file at 1. cbn [responses disk trace].
  rewrite finally_outcome. apply grab_loop_fuel_enough. simpl. lia.
Qed.

(** ** The progress report of one turn *)

(** One turn of the loop reports [min(batch_count, target - total)] with
    [total] already holding the batch. *)
Lemma grab_loop_turn (fuel : nat) (tok : Tokenizer) (cfg : Config)
    (total_count batch_count : Z) (w w1 : World) :
  (total_count < num_seqs_to_save cfg)%Z ->
  grab_batch tok cfg w = (Returned batch_count, w1) ->
  grab_loop (S fuel) tok cfg total_count w
  = grab_loop fuel tok cfg (total_count + batch_count)
      {| responses := responses w1;
         disk := disk w1;
         buffer := buffer w1;
         trace := trace w1
                  ++ [PbarUpdate
                        (Z.min batch_count
                           (num_seqs_to_save cfg
                            - (total_count + batch_count)))] |}.
Proof.
  intros Hlt Hb. cbn [grab_loop].
  apply Z.ltb_lt in Hlt. rewrite Hlt.
  unfold bind at 1. rewrite Hb. reflexivity.
Qed.

(* ================================================================= *)
(** ** [split] and [join] *)

Lemma drop_prefix (p s : string) :
  is_prefix p s -> s = (p ++ PyStr.drop (String.length p) s)%string.
Proof.
  intros [r ->]. f_equal. induction p as [|a p IH]; simpl; auto.
Qed.

Lemma join_cons_char (sep : string) (c : ascii) (seg : string)
    (segs : list string) :
  PyStr.join sep (String c seg :: segs)
  = String c (PyStr.join sep (seg :: segs)).
Proof. destruct segs; reflexivity. Qed.

Lemma split_scan_join (sep : string) (s : string) (skip : nat) :
  PyStr.is_empty sep = false ->
  PyStr.join sep (fst (PyStr.split_scan sep skip s)
                  :: snd (PyStr.split_scan sep skip s))
  = PyStr.drop skip s.
Proof.
  intros Hsep. revert skip. induction s as [|c s IH]; intros skip.
  - destruct skip; reflexivity.
  - destruct skip as [|k]; [|apply IH].
    cbn [PyStr.split_scan PyStr.drop].
    destruct (PyStr.startswith (String c s) sep) eqn:Hsw.
    + specialize (IH (String.length sep - 1)).
      destruct (PyStr.split_scan sep (String.length sep - 1) s)
        as [seg segs].
      cbn [fst snd] in *.
      change (PyStr.join sep ("" :: seg :: segs))
        with ("" ++ sep ++ PyStr.join sep (seg :: segs))%string.
      rewrite IH.
      apply startswith_spec, drop_prefix in Hsw.
      destruct sep as [|a sep]; [discriminate Hsep|].
      replace (String.length (String a sep) - 1)
        with (String.length sep) by (simpl; lia).
      cbn [String.length PyStr.drop] in Hsw. now rewrite <- Hsw.
    + specialize (IH 0).
      destruct (PyStr.split_scan sep 0 s) as [seg segs].
      cbn [fst snd] in *. rewrite join_cons_char, IH. reflexivity.
Qed.

(** Joining the parts of [s.split(sep)] with [sep] gives [s] back. *)
Lemma py_split_join (s sep : string) (parts : list string) :
  py_split s sep = Ok parts -> PyStr.join sep parts = s.
Proof.
  unfold py_split. destruct (PyStr.is_empty sep) eqn:Hsep; [discriminate|].
  pose proof (split_scan_join sep s 0 Hsep) as H.
  destruct (PyStr.split_scan sep 0 s) as [seg segs].
  intros Hp. injection Hp as <-. exact H.
Qed.

(* ================================================================= *)
(** * Further properties *)

(** ** [find_common_prefix] *)

Lemma is_prefix_antisym (p q : string) :
  is_prefix p q -> is_prefix q p -> p = q.
Proof.
  revert q. induction p as [|a p IH]; intros q Hpq Hqp.
  - now apply is_prefix_of_empty in Hqp.
  - destruct q as [|b q]; [apply is_prefix_of_empty in Hpq; discriminate|].
    apply is_prefix_cons in Hpq as [-> Hpq].
    apply is_prefix_cons in Hqp as [_ Hqp].
    f_equal. now apply IH.
Qed.

(** The greatest common prefix is unique. *)
Lemma find_common_prefix_unique (strings : list string) (r : string) :
  strings <> [] ->
  common_prefix r strings ->
  (forall q, common_prefix q strings -> is_prefix q r) ->
  find_common_prefix strings = r.
Proof.
  intros Hne Hc Hmax. destruct strings as [|s0 rest]; [contradiction|].
  destruct (find_common_prefix_greatest s0 rest) as [Hc' Hmax'].
  apply is_prefix_antisym; auto.
Qed.

(** X1: the result of [find_common_prefix] does not depend on the order of
    the strings. *)
Theorem find_common_prefix_permutation (l l' : list string) :
  Permutation l l' -> find_common_prefix l = find_common_prefix l'.
Proof.
  intros HP. destruct l as [|s0 rest].
  - apply Permutation_nil in HP. now subst.
  - destruct (find_common_prefix_greatest s0 rest) as [Hc Hmax].
    symmetry. apply find_common_prefix_unique.
    + intros ->. symmetry in HP. apply Permutation_nil in HP. discriminate.
    + unfold common_prefix in *. now rewrite <- HP.
    + intros q Hq. apply Hmax. unfold common_prefix in *. now rewrite HP.
Qed.

Lemma find_common_prefix_permutation_witness :
  Permutation ["abab"; "abc"; "a"] ["abc"; "abab"; "a"] /\
  find_common_prefix ["abab"; "abc"; "a"]
  = find_common_prefix ["abc"; "abab"; "a"].
Proof.
  assert (HP : Permutation ["abab"; "abc"; "a"] ["abc"; "abab"; "a"])
    by apply perm_swap.
  split; [exact HP | exact (find_common_prefix_permutation _ _ HP)].
Defined.

(** X2: more strings can only shorten the common prefix: the common prefix
    of a list is a prefix of the common prefix of any non-empty selection
    of its strings. *)
Theorem find_common_prefix_antimonotone (l l' : list string) :
  l' <> [] ->
  (forall s, In s l' -> In s l) ->
  is_prefix (find_common_prefix l) (find_common_prefix l').
Proof.
  intros Hne Hincl. destruct l' as [|s0' rest']; [contradiction|].
  destruct l as [|s0 rest]; [destruct (Hincl s0' (or_introl eq_refl))|].
  destruct (find_common_prefix_greatest s0 rest) as [Hc _].
  destruct (find_common_prefix_greatest s0' rest') as [_ Hmax'].
  apply Hmax'. unfold common_prefix in *. rewrite Forall_forall in *.
  intros s Hs. apply Hc. now apply Hincl.
Qed.

Lemma find_common_prefix_antimonotone_witness :
  ["abab"; "abc"] <> [] /\
  (forall s, In s ["abab"; "abc"] -> In s ["abab"; "b"; "abc"]) /\
  is_prefix (find_common_prefix ["abab"; "b"; "abc"])
            (find_common_prefix ["abab"; "abc"]).
Proof.
  assert (Hne : ["abab"; "abc"] <> []) by discriminate.
  assert (Hin : forall s, In s ["abab"; "abc"]
                          -> In s ["abab"; "b"; "abc"]).
  { intros s [<-|[<-|[]]]; simpl; auto. }
  split; [exact Hne|]. split; [exact Hin|].
  exact (find_common_prefix_antimonotone _ _ Hne Hin).
Defined.

(* ================================================================= *)
(** ** [grab_group_data] in decoded-text mode *)

Lemma string_app_assoc (a b c : string) :
  (a ++ (b ++ c))%string = ((a ++ b) ++ c)%string.
Proof. induction a as [|x a IH]; simpl; [reflexivity | now f_equal]. Qed.

Lemma split_scan_skip (sep : string) (s : string) (k : nat) :
  PyStr.split_scan sep k s = PyStr.split_scan sep 0 (PyStr.drop k s).
Proof.
  revert k. induction s as [|c s IH]; intros [|k]; try reflexivity.
  cbn [PyStr.split_scan PyStr.drop]. apply IH.
Qed.

Lemma split_scan_no_occurrence (sep r : string) :
  contains r sep = false -> PyStr.split_scan sep 0 r = (r, []).
Proof.
  induction r as [|c r IH]; intros H; [reflexivity|].
  cbn [contains] in H. apply orb_false_iff in H as [Hsw Hc].
  cbn [PyStr.split_scan]. rewrite Hsw, (IH Hc). reflexivity.
Qed.

Lemma join_head_prefix (sep seg : string) (segs : list string) :
  is_prefix seg (PyStr.join sep (seg :: segs)).
Proof.
  destruct segs as [|seg' segs]; [apply is_prefix_refl|].
  now exists (sep ++ PyStr.join sep (seg' :: segs))%string.
Qed.

Lemma completion_of_prefix (prefix text : string) :
  PyStr.is_empty prefix = false ->
  is_prefix (completion_of prefix text)
            (PyStr.drop (String.length prefix) text).
Proof.
  intros Hp. unfold completion_of.
  rewrite <- (split_scan_join prefix
                (PyStr.drop (String.length prefix) text) 0 Hp) at 2.
  apply join_head_prefix.
Qed.

Lemma completion_of_no_occurrence (prefix text : string) :
  contains (PyStr.drop (String.length prefix) text) prefix = false ->
  completion_of prefix text = remainder_after_first_occurrence prefix text.
Proof.
  intros H. unfold completion_of, remainder_after_first_occurrence.
  now rewrite split_scan_no_occurrence.
Qed.

(** [chat.split(prefix)[1]] for a non-empty prefix of [chat]. *)
Lemma split_chat_prefix (prefix chat : string) :
  PyStr.is_empty prefix = false ->
  is_prefix prefix chat ->
  split_chat prefix chat = Ok (TextChat prefix (completion_of prefix chat)).
Proof.
  intros Hp Hpre. unfold split_chat, py_split, completion_of. rewrite Hp.
  destruct prefix as [|a prefix]; [discriminate Hp|].
  destruct chat as [|b chat]; [apply is_prefix_of_empty in Hpre;
                               discriminate|].
  apply startswith_spec in Hpre.
  cbn [PyStr.split_scan]. rewrite Hpre.
  replace (String.length (String a prefix) - 1)
    with (String.length prefix) by (simpl; lia).
  cbn [String.length PyStr.drop].
  rewrite (split_scan_skip (String a prefix) chat (String.length prefix)).
  destruct (PyStr.split_scan (String a prefix) 0
              (PyStr.drop (String.length prefix) chat)) as [seg segs].
  reflexivity.
Qed.

Lemma rmap_map {A B} (f : A -> result B) (h : A -> B) (l : list A) :
  (forall x, In x l -> f x = Ok (h x)) -> rmap f l = Ok (map h l).
Proof.
  induction l as [|x l IH]; intros H; [reflexivity|].
  simpl. rewrite (H x (or_introl eq_refl)). simpl.
  rewrite IH; [reflexivity|]. intros y Hy. apply H. now right.
Qed.

(** The [chats] of a group in decoded-text mode, when the common prefix is
    not empty. *)
Lemma group_chats_decoded (tok : Tokenizer) (g : Group)
    (toks : list (list Z)) :
  tokens g = Some toks ->
  PyStr.is_empty (find_common_prefix (map (decode tok) toks)) = false ->
  group_chats tok g false
  = Ok (map (fun text =>
               TextChat (find_common_prefix (map (decode tok) toks))
                 (completion_of (find_common_prefix (map (decode tok) toks))
                    text))
            (map (decode tok) toks)).
Proof.
  intros Ht Hp. unfold group_chats, get_tokens. rewrite Ht. simpl.
  apply rmap_map. intros text Hin. apply split_chat_prefix; [exact Hp|].
  destruct (map (decode tok) toks) as [|s0 rest] eqn:E; [destruct Hin|].
  destruct (find_common_prefix_greatest s0 rest) as [Hc _].
  unfold common_prefix in Hc. rewrite Forall_forall in Hc. now apply Hc.
Qed.

Lemma select_nil_chats (scores : list Q) (n : Z) (allow : bool) (t : Q) :
  select scores [] n allow t = [].
Proof.
  pose proof (select_length scores [] n allow t) as H.
  simpl in H. rewrite Nat.min_0_r in H.
  destruct (select scores [] n allow t); [reflexivity | simpl in H; lia].
Qed.



(** Every record of the output in decoded-text mode, traced back to the
    text and the score of one position of the group. *)
Lemma grab_group_data_decoded_records (tok : Tokenizer) (g : Group) (n : Z)
    (allow : bool) (t : Q) (toks : list (list Z)) (ss : list Q)
    (out : list SftRecord) :
  tokens g = Some toks ->
  scores g = Some ss ->
  grab_group_data tok g false n allow t = Ok out ->
  Forall (fun r => exists i tk,
              nth_error toks i = Some tk /\
              nth_error ss i = Some (score r) /\
              PyStr.is_empty (find_common_prefix (map (decode tok) toks))
              = false /\
              is_prefix (find_common_prefix (map (decode tok) toks))
                        (decode tok tk) /\
              r = DecodedTextRecord
                    (find_common_prefix (map (decode tok) toks))
                    (completion_of
                       (find_common_prefix (map (decode tok) toks))
                       (decode tok tk))
                    (score r)) out.
Proof.
  intros Ht Hss Hrun.
  destruct (PyStr.is_empty (find_common_prefix (map (decode tok) toks)))
    eqn:Hp.
  - (* an empty prefix: either no token list, or an error *)
    apply is_empty_spec in Hp. unfold grab_group_data, group_chats,
      get_tokens, get_scores in Hrun. rewrite Ht, Hss in Hrun.
    cbn [rbind] in Hrun. cbv zeta in Hrun. rewrite Hp in Hrun.
    destruct toks as [|tk toks]; [|discriminate Hrun].
    simpl in Hrun. rewrite select_nil_chats in Hrun.
    injection Hrun as <-. constructor.
  - rewrite (grab_group_data_run tok g false n allow t _ ss
               (group_chats_decoded tok g toks Ht Hp) Hss) in Hrun.
    injection Hrun as <-.
    apply Forall_forall. intros r Hr.
    apply select_In in Hr as ([s x] & Hin & ->).
    apply in_combine_nth_error in Hin as (i & Hs & Hx).
    rewrite !nth_error_map in Hx.
    destruct (nth_error toks i) as [tk|] eqn:Htk; [|discriminate Hx].
    cbn in Hx. injection Hx as <-. exists i, tk. cbn.
    repeat split; try assumption; try reflexivity.
    assert (Hin : In (decode tok tk) (map (decode tok) toks)).
    { apply in_map. eapply nth_error_In. exact Htk. }
    destruct (map (decode tok) toks) as [|s0 rest] eqn:E; [destruct Hin|].
    destruct (find_common_prefix_greatest s0 rest) as [Hc _].
    unfold common_prefix in Hc. rewrite Forall_forall in Hc. now apply Hc.
Qed.



(** X4: in decoded-text mode every record of the output carries the common
    prefix of the group's decoded texts, the score of one position of the
    group, and a completion such that prefix followed by completion is a
    prefix of the decoded text of that position. *)
Theorem grab_group_data_decoded_record_shape (tok : Tokenizer) (g : Group)
    (n : Z) (allow : bool) (t : Q) (toks : list (list Z))
    (out : list SftRecord) :
  tokens g = Some toks ->
  grab_group_data tok g false n allow t = Ok out ->
  exists ss,
    scores g = Some ss /\
    Forall (fun r => exists i tk completion,
                nth_error toks i = Some tk /\
                nth_error ss i = Some (score r) /\
                r = DecodedTextRecord
                      (find_common_prefix (map (decode tok) toks))
                      completion (score r) /\
                is_prefix (find_common_prefix (map (decode tok) toks)
                           ++ completion)%string
                          (decode tok tk)) out.
Proof.
  intros Ht Hrun.
  destruct (grab_group_data_ok_inv _ _ _ _ _ _ _ Hrun)
    as (_ & ss & _ & Hss & _).
  exists ss. split; [exact Hss|].
  eapply Forall_impl; [|exact (grab_group_data_decoded_records
                                 tok g n allow t toks ss out Ht Hss Hrun)].
  intros r (i & tk & Hi & Hs & Hp & Hpre & Hr).
  exists i, tk,
    (completion_of (find_common_prefix (map (decode tok) toks))
       (decode tok tk)).
  repeat split; try assumption.
  destruct (completion_of_prefix _ (decode tok tk) Hp) as [rest Hrest].
  exists rest. rewrite (drop_prefix _ _ Hpre) at 1.
  rewrite Hrest. apply string_app_assoc.
Qed.

Lemma grab_group_data_decoded_record_shape_witness :
  tokens Examples.group_abab
    = Some [Examples.encode "abab"; Examples.encode "abc"] /\
  grab_group_data Examples.char_tok Examples.group_abab false 3 false 0
    = Ok [DecodedTextRecord "ab" "c" (3 # 4);
          DecodedTextRecord "ab" "" (1 # 2)] /\
  exists ss,
    scores Examples.group_abab = Some ss /\
    Forall (fun r => exists i tk completion,
                nth_error [Examples.encode "abab"; Examples.encode "abc"] i
                = Some tk /\
                nth_error ss i = Some (score r) /\
                r = DecodedTextRecord
                      (find_common_prefix
                         (map (decode Examples.char_tok)
                            [Examples.encode "abab"; Examples.encode "abc"]))
                      completion (score r) /\
                is_prefix (find_common_prefix
                             (map (decode Examples.char_tok)
                                [Examples.encode "abab";
                                 Examples.encode "abc"])
                           ++ completion)%string
                          (decode Examples.char_tok tk))
           [DecodedTextRecord "ab" "c" (3 # 4);
            DecodedTextRecord "ab" "" (1 # 2)].
Proof.
  split; [reflexivity|]. split; [reflexivity|].
  exact (grab_group_data_decoded_record_shape Examples.char_tok
           Examples.group_abab 3 false 0 _ _ eq_refl eq_refl).
Defined.

(** X5: in decoded-text mode, when the common prefix does not occur again
    after the start of any decoded text, every record's completion is the
    whole text after the prefix. *)
Theorem grab_group_data_completion_is_remainder (tok : Tokenizer) (g : Group)
    (n : Z) (allow : bool) (t : Q) (toks : list (list Z))
    (out : list SftRecord) :
  tokens g = Some toks ->
  grab_group_data tok g false n allow t = Ok out ->
  (forall tk, In tk toks ->
     contains (PyStr.drop
                 (String.length (find_common_prefix (map (decode tok) toks)))
                 (decode tok tk))
              (find_common_prefix (map (decode tok) toks)) = false) ->
  exists ss,
    scores g = Some ss /\
    Forall (fun r => exists i tk,
                nth_error toks i = Some tk /\
                nth_error ss i = Some (score r) /\
                r = DecodedTextRecord
                      (find_common_prefix (map (decode tok) toks))
                      (remainder_after_first_occurrence
                         (find_common_prefix (map (decode tok) toks))
                         (decode tok tk))
                      (score r) /\
                decode tok tk
                = (find_common_prefix (map (decode tok) toks)
                   ++ remainder_after_first_occurrence
                        (find_common_prefix (map (decode tok) toks))
                        (decode tok tk))%string) out.
Proof.
  intros Ht Hrun Hno.
  destruct (grab_group_data_ok_inv _ _ _ _ _ _ _ Hrun)
    as (_ & ss & _ & Hss & _).
  exists ss. split; [exact Hss|].
  eapply Forall_impl; [|exact (grab_group_data_decoded_records
                                 tok g n allow t toks ss out Ht Hss Hrun)].
  intros r (i & tk & Hi & Hs & Hp & Hpre & Hr).
  exists i, tk. repeat split; try assumption.
  - rewrite <- completion_of_no_occurrence; [exact Hr|].
    apply Hno. eapply nth_error_In. exact Hi.
  - unfold remainder_after_first_occurrence. now apply drop_prefix.
Qed.

Lemma grab_group_data_completion_is_remainder_witness :
  tokens Examples.group_cats
    = Some [Examples.encode "The cat sat"; Examples.encode "The cat ran"] /\
  grab_group_data Examples.char_tok Examples.group_cats false 3 false 0
    = Ok [DecodedTextRecord "The cat " "ran" (3 # 4);
          DecodedTextRecord "The cat " "sat" (1 # 2)] /\
  (forall tk,
     In tk [Examples.encode "The cat sat"; Examples.encode "The cat ran"] ->
     contains (PyStr.drop 8 (decode Examples.char_tok tk)) "The cat "
     = false) /\
  exists ss,
    scores Examples.group_cats = Some ss /\
    Forall (fun r => exists i tk,
                nth_error
                  [Examples.encode "The cat sat";
                   Examples.encode "The cat ran"]
                  i = Some tk /\
                nth_error ss i = Some (score r) /\
                r = DecodedTextRecord "The cat "
                      (remainder_after_first_occurrence "The cat "
                         (decode Examples.char_tok tk))
                      (score r) /\
                decode Examples.char_tok tk
                = ("The cat "
                   ++ remainder_after_first_occurrence "The cat "
                        (decode Examples.char_tok tk))%string)
           [DecodedTextRecord "The cat " "ran" (3 # 4);
            DecodedTextRecord "The cat " "sat" (1 # 2)].
Proof.
  assert (Hno : forall tk,
             In tk [Examples.encode "The cat sat";
                    Examples.encode "The cat ran"] ->
             contains (PyStr.drop 8 (decode Examples.char_tok tk)) "The cat "
             = false).
  { intros tk [<-|[<-|[]]]; reflexivity. }
  split; [reflexivity|]. split; [reflexivity|]. split; [exact Hno|].
  exact (grab_group_data_completion_is_remainder Examples.char_tok
           Examples.group_cats 3 false 0 _ _ eq_refl eq_refl Hno).
Defined.

(* ================================================================= *)
(** ** Truncation, ties and what the filters keep *)

(** The sorted and filtered list that [select] truncates. *)
Lemma select_untruncated (scores : list Q) (chats : list ChatItem)
    (allow : bool) (t : Q) :
  exists full,
    (forall n, select scores chats n allow t = py_take n full) /\
    List.length full <= Nat.min (List.length scores) (List.length chats) /\
    (exists keep,
       full = filter keep (map to_record (sorted_desc (combine scores chats)))
       /\ (forall x y, (score x == score y)%Q -> keep x = keep y)
       /\ (allow = true -> Qgtb t 0 = false -> forall x, keep x = true)).
Proof.
  unfold select.
  set (l0 := map to_record (sorted_desc (combine scores chats))).
  assert (L0 : List.length l0
               = Nat.min (List.length scores) (List.length chats)).
  { unfold l0. rewrite length_map,
      <- (Permutation_length (sorted_desc_perm _)). apply length_combine. }
  assert (Hle : forall a b c d, (a == b)%Q -> (c == d)%Q ->
                                Qle_bool a c = Qle_bool b d).
  { intros a b c d Hab Hcd.
    destruct (Qle_bool a c) eqn:E1, (Qle_bool b d) eqn:E2; try reflexivity.
    - apply Qle_bool_iff in E1. rewrite Hab, Hcd in E1.
      apply Qle_bool_iff in E1. congruence.
    - apply Qle_bool_iff in E2. rewrite <- Hab, <- Hcd in E2.
      apply Qle_bool_iff in E2. congruence. }
  exists (filter (fun x =>
            (allow || Qgtb (score x) 0)
            && (negb (Qgtb t 0) || Qgtb (score x - min_score scores) t))
            l0).
  split; [|split].
  - intros n. f_equal. cbv zeta.
    destruct allow, (Qgtb t 0); cbn [negb orb andb]; clear;
      induction l0 as [|x l IH]; cbn [filter]; try reflexivity.
    + now f_equal.
    + destruct (Qgtb (score x) 0); cbn [filter andb];
        destruct (Qgtb (score x - min_score scores) t); now rewrite IH.
    + rewrite andb_true_r. destruct (Qgtb (score x) 0); now rewrite IH.
  - rewrite <- L0. apply filter_length_le.
  - eexists. split; [reflexivity|]. split.
    + intros x y Hxy. unfold Qgtb.
      rewrite (Hle (score x) (score y) 0%Q 0%Q Hxy (Qeq_refl _)).
      rewrite (Hle (score x - min_score scores)%Q
                   (score y - min_score scores)%Q t t);
        [reflexivity | now rewrite Hxy | reflexivity].
    + intros -> -> x. reflexivity.
Qed.

Lemma py_take_all {A} (n : Z) (l : list A) :
  (Z.of_nat (List.length l) <= n)%Z -> py_take n l = l.
Proof.
  intros H. unfold py_take.
  destruct (0 <=? n)%Z eqn:E; [|apply Z.leb_gt in E; lia].
  apply firstn_all2. lia.
Qed.

Lemma py_take_prefix {A} (n : Z) (l : list A) :
  exists rest, l = py_take n l ++ rest.
Proof.
  destruct (py_take_firstn n l) as [k ->]. exists (skipn k l).
  symmetry. apply firstn_skipn.
Qed.

Lemma py_take_length_cases {A} (n : Z) (l : list A) :
  ((0 <= n)%Z ->
   List.length (py_take n l) = Nat.min (Z.to_nat n) (List.length l)) /\
  ((n < 0)%Z ->
   List.length (py_take n l) = List.length l - Z.to_nat (- n)).
Proof.
  unfold py_take. split; intros H.
  - apply Z.leb_le in H. rewrite H. apply length_firstn.
  - apply Z.ltb_lt in H. rewrite Z.leb_antisym, H. cbn [negb].
    rewrite length_firstn. lia.
Qed.

(** X6: [save_top_n_per_group] truncates the sorted, filtered list of the
    group: the output is its initial segment; for [n >= 0] it has
    [min(n, len)] records, none for [n = 0]; a negative [n] is not refused
    but drops the last [-n] records instead. *)
Theorem grab_group_data_truncation (tok : Tokenizer) (g : Group)
    (save_msgs : bool) (allow : bool) (t : Q) (ss : list Q)
    (full : list SftRecord) :
  scores g = Some ss ->
  grab_group_data tok g save_msgs (Z.of_nat (List.length ss)) allow t
  = Ok full ->
  forall n, exists out,
    grab_group_data tok g save_msgs n allow t = Ok out /\
    (exists rest, full = out ++ rest) /\
    ((0 <= n)%Z ->
     List.length out = Nat.min (Z.to_nat n) (List.length full)) /\
    ((n < 0)%Z ->
     List.length out = List.length full - Z.to_nat (- n)).
Proof.
  intros Hss Hfull n.
  destruct (grab_group_data_ok_inv _ _ _ _ _ _ _ Hfull)
    as (chats & ss' & Hc & Hss' & ->).
  rewrite Hss in Hss'. injection Hss' as <-.
  rewrite (grab_group_data_run tok g save_msgs n allow t chats ss Hc Hss).
  destruct (select_untruncated ss chats allow t) as (l & Hsel & Hlen & _).
  rewrite !Hsel. rewrite (py_take_all (Z.of_nat (List.length ss)) l) by lia.
  exists (py_take n l). split; [reflexivity|].
  split; [apply py_take_prefix | apply py_take_length_cases].
Qed.

Lemma grab_group_data_truncation_witness :
  scores Examples.group_scenario_b = Some [5; 55 # 10; 0]%Q /\
  grab_group_data Examples.char_tok Examples.group_scenario_b true
    (Z.of_nat (List.length [5; 55 # 10; 0]%Q)) false 0
  = Ok [RawMessageRecord Examples.chat_b (55 # 10);
        RawMessageRecord Examples.chat_a 5] /\
  grab_group_data Examples.char_tok Examples.group_scenario_b true (-1)
    false 0
  = Ok [RawMessageRecord Examples.chat_b (55 # 10)].
Proof.
  split; [reflexivity|]. split; [reflexivity|].
  destruct (grab_group_data_truncation Examples.char_tok
              Examples.group_scenario_b true false 0 _ _ eq_refl eq_refl
              (-1)%Z)
    as (out & Hout & _).
  rewrite Hout. vm_compute in Hout. exact (eq_sym Hout).
Defined.








(** X8: with negative scores allowed, no positive threshold and a cap of at
    least the number of paired candidates, nothing is dropped and nothing
    is repeated: the output is a rearrangement of the candidates paired
    with their scores. *)
Theorem grab_group_data_keeps_all (tok : Tokenizer) (g : Group)
    (save_msgs : bool) (n : Z) (t : Q) (chats : list ChatItem)
    (ss : list Q) :
  group_chats tok g save_msgs = Ok chats ->
  scores g = Some ss ->
  (t <= 0)%Q ->
  (Z.of_nat (Nat.min (List.length ss) (List.length chats)) <= n)%Z ->
  exists out,
    grab_group_data tok g save_msgs n true t = Ok out /\
    Permutation (map to_record (combine ss chats)) out.
Proof.
  intros Hc Hss Ht Hn.
  rewrite (grab_group_data_run tok g save_msgs n true t chats ss Hc Hss).
  destruct (select_untruncated ss chats true t)
    as (full & Hsel & Hlen & keep & Hfull & _ & Hall).
  assert (Hgt : Qgtb t 0 = false).
  { unfold Qgtb. apply negb_false_iff. now apply Qle_bool_iff. }
  specialize (Hall eq_refl Hgt).
  eexists. split; [reflexivity|].
  rewrite Hsel, py_take_all by lia. rewrite Hfull.
  replace (filter keep (map to_record (sorted_desc (combine ss chats))))
    with (map to_record (sorted_desc (combine ss chats))).
  - apply Permutation_map, sorted_desc_perm.
  - generalize (map to_record (sorted_desc (combine ss chats))).
    intros l. induction l as [|x l IH]; [reflexivity|].
    cbn [filter]. rewrite Hall. now f_equal.
Qed.

Lemma grab_group_data_keeps_all_witness :
  group_chats Examples.char_tok MoreExamples.group_ties true
  = Ok [RawChat Examples.chat_a; RawChat Examples.chat_b;
        RawChat Examples.chat_c] /\
  scores MoreExamples.group_ties = Some [1; 2; 1]%Q /\
  (0 <= 0)%Q /\
  exists out,
    grab_group_data Examples.char_tok MoreExamples.group_ties true 3 true 0
    = Ok out /\
    Permutation [RawMessageRecord Examples.chat_a 1;
                 RawMessageRecord Examples.chat_b 2;
                 RawMessageRecord Examples.chat_c 1] out.
Proof.
  assert (Ht : (0 <= 0)%Q) by apply Qle_refl.
  split; [reflexivity|]. split; [reflexivity|]. split; [exact Ht|].
  refine (grab_group_data_keeps_all Examples.char_tok
            MoreExamples.group_ties true 3 0 _ _ eq_refl eq_refl Ht _).
  simpl. lia.
Defined.

(** X9: with a positive threshold the lowest score of a group is never
    saved: no record of the output has the group's minimum score, and a
    group whose scores are all the same yields no record at all. *)
Theorem grab_group_data_threshold_drops_minimum (tok : Tokenizer) (g : Group)
    (save_msgs : bool) (n : Z) (allow : bool) (t : Q)
    (out : list SftRecord) :
  (0 < t)%Q ->
  grab_group_data tok g save_msgs n allow t = Ok out ->
  exists ss,
    scores g = Some ss /\
    Forall (fun r => ~ (score r == min_score ss)%Q) out /\
    ((forall s s', In s ss -> In s' ss -> (s == s')%Q) -> out = []).
Proof.
  intros Ht Hrun.
  apply grab_group_data_ok_inv in Hrun as (chats & ss & _ & Hss & ->).
  exists ss. split; [exact Hss|].
  destruct (select_spec ss chats n allow t) as (_ & _ & Hthr).
  specialize (Hthr Ht).
  assert (Hmin : Forall (fun r => ~ (score r == min_score ss)%Q)
                        (select ss chats n allow t)).
  { eapply Forall_impl; [|exact Hthr]. intros r Hr Heq. cbv beta in Hr.
    rewrite Heq in Hr. unfold Qminus in Hr. rewrite Qplus_opp_r in Hr.
    exact (Qlt_irrefl 0 (Qlt_trans _ _ _ Ht Hr)). }
  split; [exact Hmin|]. intros Hflat.
  destruct (select ss chats n allow t) as [|r out'] eqn:E;
    [reflexivity|].
  exfalso. inversion Hmin as [|? ? Hr _]; subst. apply Hr.
  assert (Hin : In r (select ss chats n allow t))
    by (rewrite E; now left).
  apply select_In in Hin as ([s x] & Hp & ->).
  rewrite score_to_record. cbn [fst]. apply in_combine_l in Hp.
  apply Hflat; [exact Hp|].
  apply min_score_least. intros Hnil. rewrite Hnil in Hp. destruct Hp.
Qed.

Lemma grab_group_data_threshold_drops_minimum_witness :
  (0 < 1 # 2)%Q /\
  grab_group_data Examples.char_tok MoreExamples.group_flat true 3 false
                  (1 # 2) = Ok [] /\
  (forall s s', In s [2; 2; 2]%Q -> In s' [2; 2; 2]%Q -> (s == s')%Q).
Proof.
  assert (Ht : (0 < 1 # 2)%Q) by reflexivity.
  assert (Hflat : forall s s', In s [2; 2; 2]%Q -> In s' [2; 2; 2]%Q ->
                               (s == s')%Q).
  { intros s s' [<-|[<-|[<-|[]]]] [<-|[<-|[<-|[]]]]; reflexivity. }
  split; [exact Ht|]. split; [|exact Hflat].
  destruct (grab_group_data Examples.char_tok MoreExamples.group_flat true
              3 false (1 # 2)) as [out|e] eqn:E; [|discriminate E].
  f_equal.
  destruct (grab_group_data_threshold_drops_minimum Examples.char_tok
              MoreExamples.group_flat true 3 false (1 # 2) out Ht E)
    as (ss & Hss & _ & Hempty).
  injection Hss as <-. exact (Hempty Hflat).
Defined.

(* ================================================================= *)
(** ** [check_for_batch]: errors and events *)

Lemma poll_missing_key (api_url : string) (k : nat)
    (rest : list BatchResponse) (tr : list Event) :
  poll api_url (repeat BatchNull k ++ NoBatchKey :: rest) tr
  = (Raised (KeyError "batch"),
     (rest, tr ++ not_ready_trace api_url k ++ [HttpGet (api_url ++ "/batch")])).
Proof.
  revert tr. induction k as [|k IH]; intros tr; simpl; [reflexivity|].
  rewrite IH, <- !app_assoc. reflexivity.
Qed.

(** X10: an answer without a ["batch"] entry is a [KeyError]: it is not
    retried, and the answers "not ready" before it have each cost a request
    and a wait of 1. *)
Theorem check_for_batch_missing_key (api_url : string) (w : World) (k : nat)
    (rest : list BatchResponse) :
  responses w = repeat BatchNull k ++ NoBatchKey :: rest ->
  check_for_batch api_url w
  = (Raised (KeyError "batch"),
     {| responses := rest;
        disk := disk w;
        buffer := buffer w;
        trace := trace w ++ not_ready_trace api_url k
                 ++ [HttpGet (api_url ++ "/batch")] |}).
Proof.
  intros Hr. unfold check_for_batch. now rewrite Hr, poll_missing_key.
Qed.

Lemma check_for_batch_missing_key_witness :
  responses MoreExamples.world_malformed
    = repeat BatchNull 1
      ++ NoBatchKey :: [BatchList [Examples.group_of 3]] /\
  check_for_batch "http://localhost:8000" MoreExamples.world_malformed
  = (Raised (KeyError "batch"),
     {| responses := [BatchList [Examples.group_of 3]];
        disk := None;
        buffer := None;
        trace := [HttpGet "http://localhost:8000/batch"; Sleep 1;
                  HttpGet "http://localhost:8000/batch"] |}).
Proof.
  split; [reflexivity|].
  exact (check_for_batch_missing_key "http://localhost:8000"
           MoreExamples.world_malformed 1 _ eq_refl).
Defined.

Lemma poll_events (api_url : string) (rs : list BatchResponse)
    (tr : list Event) :
  exists more,
    snd (snd (poll api_url rs tr)) = tr ++ more /\
    Forall (is_poll_event api_url) more /\
    List.length (filter is_request more)
    = S (List.length (filter is_sleep more)) /\
    List.length (filter is_sleep more)
    + List.length (fst (snd (poll api_url rs tr)))
    <= List.length rs.
Proof.
  revert tr. induction rs as [|r rs IH]; intros tr.
  - exists [HttpGet (api_url ++ "/batch")].
    split; [reflexivity|]. split; [repeat constructor; now left|].
    split; [reflexivity | simpl; lia].
  - destruct r.
    + exists [HttpGet (api_url ++ "/batch")].
      split; [reflexivity|]. split; [repeat constructor; now left|].
      split; [reflexivity | simpl; lia].
    + cbn [poll].
      destruct (IH ((tr ++ [HttpGet (api_url ++ "/batch")]) ++ [Sleep 1]))
        as (more & Hm & HP & Hc & Hl).
      exists (HttpGet (api_url ++ "/batch") :: Sleep 1 :: more).
      rewrite Hm, <- !app_assoc. split; [reflexivity|]. split.
      * constructor; [now left|]. constructor; [now right | exact HP].
      * rewrite <- app_assoc in Hl. simpl. simpl in Hl. split; lia.
    + exists [HttpGet (api_url ++ "/batch")].
      split; [reflexivity|]. split; [repeat constructor; now left|].
      split; [reflexivity | simpl; lia].
Qed.

(** X11: [check_for_batch] does nothing but ask and wait: whatever the
    service answers, it leaves the output file and its buffer alone, the
    events it adds are next-batch requests and waits of 1 only, there is
    exactly one request more than there are waits, and it never waits more
    often than the service has answered. *)
Theorem check_for_batch_only_polls (api_url : string) (w : World) :
  exists more,
    trace (snd (check_for_batch api_url w)) = trace w ++ more /\
    Forall (is_poll_event api_url) more /\
    List.length (filter is_request more)
    = S (List.length (filter is_sleep more)) /\
    List.length (filter is_sleep more)
    + List.length (responses (snd (check_for_batch api_url w)))
    <= List.length (responses w) /\
    disk (snd (check_for_batch api_url w)) = disk w /\
    buffer (snd (check_for_batch api_url w)) = buffer w.
Proof.
  unfold check_for_batch.
  destruct (poll_events api_url (responses w) (trace w))
    as (more & Hm & HP & Hc & Hl).
  destruct (poll api_url (responses w) (trace w)) as [o [rs tr]].
  exists more. cbn [fst snd trace disk buffer responses] in *.
  repeat split; assumption || reflexivity.
Qed.

(* ================================================================= *)
(** ** Writing the records of a batch *)

Lemma writes_app (a b : list Event) : writes (a ++ b) = writes a ++ writes b.
Proof.
  induction a as [|e a IH]; [reflexivity|].
  destruct e; simpl; rewrite IH; reflexivity.
Qed.

Lemma writes_map_FileWrite (items : list SftRecord) :
  writes (map FileWrite items) = items.
Proof. induction items as [|x l IH]; simpl; [reflexivity | now f_equal]. Qed.

Lemma writes_poll_events (api_url : string) (more : list Event) :
  Forall (is_poll_event api_url) more -> writes more = [].
Proof.
  induction 1 as [|e more [-> | ->] _ IH]; simpl; auto.
Qed.

Lemma poll_event_is_loop_event (api_url : string) (e : Event) :
  is_poll_event api_url e -> is_loop_event api_url e.
Proof. intros [-> | ->]; reflexivity. Qed.

Lemma write_items_exact (items : list SftRecord) (count : Z) (w : World)
    (pending : list SftRecord) :
  buffer w = Some pending ->
  write_items items count w
  = (Returned (count + Z.of_nat (List.length items))%Z,
     {| responses := responses w;
        disk := disk w;
        buffer := Some (pending ++ items);
        trace := trace w ++ map FileWrite items |}).
Proof.
  revert count w pending. induction items as [|item items IH];
    intros count w pending Hb.
  - destruct w as [rs d b tr]. simpl in *. subst b.
    rewrite !app_nil_r, Z.add_0_r. reflexivity.
  - cbn [write_items]. unfold bind, jsonl_write.
    erewrite IH by (cbn [buffer]; rewrite Hb; reflexivity).
    cbn [responses disk trace map List.length]. rewrite <- !app_assoc.
    f_equal. f_equal. lia.
Qed.

(** The groups of a batch up to the first that fails are written, and the
    count is theirs. *)
Lemma write_groups_good (tok : Tokenizer) (cfg : Config) (good : list Group)
    (outs : list (list SftRecord)) (data : list Group) (count : Z)
    (w : World) (pending : list SftRecord) :
  Forall2 (fun group items => group_output tok cfg group = Ok items)
          good outs ->
  buffer w = Some pending ->
  write_groups tok cfg (good ++ data) count w
  = write_groups tok cfg data
      (count + Z.of_nat (List.length (List.concat outs)))%Z
      {| responses := responses w;
         disk := disk w;
         buffer := Some (pending ++ List.concat outs);
         trace := trace w ++ map FileWrite (List.concat outs) |}.
Proof.
  intros HF. revert count w pending.
  induction HF as [|group items good outs Hg HF IH];
    intros count w pending Hb.
  - destruct w as [rs d b tr]. simpl in *. subst b.
    now rewrite !app_nil_r, Z.add_0_r.
  - cbn [app write_groups]. unfold group_output in Hg. rewrite Hg.
    unfold bind. rewrite (write_items_exact items count w pending Hb).
    rewrite (IH _ _ (pending ++ items)) by reflexivity.
    cbn [responses disk trace List.concat].
    rewrite length_app, map_app, !app_assoc.
    f_equal. lia.
Qed.

Lemma write_groups_writes (tok : Tokenizer) (cfg : Config)
    (data : list Group) (count : Z) (w : World)
    (pending : list SftRecord) :
  buffer w = Some pending ->
  exists written,
    trace (snd (write_groups tok cfg data count w))
    = trace w ++ map FileWrite written /\
    buffer (snd (write_groups tok cfg data count w))
    = Some (pending ++ written) /\
    disk (snd (write_groups tok cfg data count w)) = disk w /\
    forall n, fst (write_groups tok cfg data count w) = Returned n ->
              n = (count + Z.of_nat (List.length written))%Z.
Proof.
  revert count w pending. induction data as [|g data IH];
    intros count w pending Hb.
  - exists []. simpl. rewrite !app_nil_r.
    split; [reflexivity|]. split; [exact Hb|]. split; [reflexivity|].
    intros n Hn. injection Hn as <-. lia.
  - cbn [write_groups].
    destruct (grab_group_data _ _ _ _ _ _) as [items|e].
    + unfold bind. rewrite (write_items_exact items count w pending Hb).
      match goal with
      | |- context [write_groups tok cfg data ?c ?w1] =>
          destruct (IH c w1 (pending ++ items) eq_refl)
            as (wr & Ht & Hk & Hd & Hn)
      end.
      exists (items ++ wr). rewrite Ht, Hk, Hd. cbn [trace disk].
      rewrite map_app, !app_assoc.
      split; [reflexivity|]. split; [reflexivity|]. split; [reflexivity|].
      intros n H. rewrite (Hn n H), length_app. lia.
    + exists []. simpl. rewrite !app_nil_r.
      split; [reflexivity|]. split; [exact Hb|]. split; [reflexivity|].
      intros n Hn. discriminate Hn.
Qed.

Lemma grab_batch_raises (tok : Tokenizer) (cfg : Config) (w : World)
    (pending : list SftRecord) (good : list Group)
    (outs : list (list SftRecord)) (bad : Group) (e : Error)
    (after : list Group) (rest : list BatchResponse) :
  responses w = BatchList (good ++ bad :: after) :: rest ->
  buffer w = Some pending ->
  Forall2 (fun group items => group_output tok cfg group = Ok items)
          good outs ->
  group_output tok cfg bad = Err e ->
  grab_batch tok cfg w
  = (Raised e,
     {| responses := rest;
        disk := disk w;
        buffer := Some (pending ++ List.concat outs);
        trace := trace w ++ HttpGet (api_url cfg ++ "/batch")
                            :: map FileWrite (List.concat outs) |}).
Proof.
  intros Hr Hb HF Hbad. unfold grab_batch, bind, check_for_batch.
  rewrite Hr. cbn [poll].
  rewrite (write_groups_good tok cfg good outs (bad :: after) 0 _ pending HF)
    by exact Hb.
  cbn [write_groups responses disk trace]. unfold group_output in Hbad.
  rewrite Hbad. unfold raise. rewrite <- app_assoc. reflexivity.
Qed.

Lemma grab_loop_stop (fuel : nat) (tok : Tokenizer) (cfg : Config)
    (total_count : Z) (w w1 : World) (o : Outcome Z) :
  (total_count < num_seqs_to_save cfg)%Z ->
  grab_batch tok cfg w = (o, w1) ->
  (forall n, o <> Returned n) ->
  grab_loop (S fuel) tok cfg total_count w = (o, w1).
Proof.
  intros Hlt Hb Ho. cbn [grab_loop]. apply Z.ltb_lt in Hlt. rewrite Hlt.
  unfold bind at 1. rewrite Hb.
  destruct o as [n|e| |]; [now contradiction (Ho n) | reflexivity ..].
Qed.

(** X16: when a group of a batch cannot be processed, [grab_batch] raises
    that group's error: the records of the groups before it have been
    handed to the writer, after those it held, and the groups after it are
    not looked at.  The error leaves the loop and the [with] block, which
    closes the file: the file then holds its earlier lines followed by
    those records. *)
Theorem grab_batch_partial_write (fuel : nat) (tok : Tokenizer)
    (cfg : Config) (total_count : Z) (w : World)
    (pending : list SftRecord) (good : list Group)
    (outs : list (list SftRecord)) (bad : Group) (e : Error)
    (after : list Group) (rest : list BatchResponse) :
  (total_count < num_seqs_to_save cfg)%Z ->
  responses w = BatchList (good ++ bad :: after) :: rest ->
  buffer w = Some pending ->
  Forall2 (fun group items => group_output tok cfg group = Ok items)
          good outs ->
  group_output tok cfg bad = Err e ->
  grab_batch tok cfg w
  = (Raised e,
     {| responses := rest;
        disk := disk w;
        buffer := Some (pending ++ List.concat outs);
        trace := trace w ++ HttpGet (api_url cfg ++ "/batch")
                            :: map FileWrite (List.concat outs) |}) /\
  finally (grab_loop (S fuel) tok cfg total_count) close_file w
  = (Raised e,
     {| responses := rest;
        disk := Some (lines_of (disk w) ++ pending ++ List.concat outs);
        buffer := None;
        trace := trace w ++ HttpGet (api_url cfg ++ "/batch")
                            :: map FileWrite (List.concat outs) |}).
Proof.
  intros Hlt Hr Hb HF Hbad.
  pose proof (grab_batch_raises tok cfg w pending good outs bad e after rest
                Hr Hb HF Hbad) as Hraise.
  split; [exact Hraise|].
  unfold finally.
  rewrite (grab_loop_stop fuel tok cfg total_count w _ _ Hlt Hraise)
    by (intros n; discriminate).
  reflexivity.
Qed.

Lemma grab_batch_partial_write_witness :
  (0 < num_seqs_to_save MoreExamples.cfg_append)%Z /\
  responses MoreExamples.world_bad_second_group
  = BatchList ([Examples.group_of 2]
               ++ MoreExamples.group_no_messages :: [Examples.group_of 1])
    :: [] /\
  buffer MoreExamples.world_bad_second_group
  = Some [RawMessageRecord Examples.chat_c 3] /\
  finally (grab_loop 1 Examples.char_tok MoreExamples.cfg_append 0)
    close_file MoreExamples.world_bad_second_group
  = (Raised (KeyError "messages"),
     {| responses := [];
        disk := Some [RawMessageRecord Examples.chat_b 7;
                      RawMessageRecord Examples.chat_c 3;
                      RawMessageRecord Examples.chat_a 1;
                      RawMessageRecord Examples.chat_a 1];
        buffer := None;
        trace := [HttpGet "http://localhost:8000/batch";
                  FileWrite (RawMessageRecord Examples.chat_a 1);
                  FileWrite (RawMessageRecord Examples.chat_a 1)] |}).
Proof.
  assert (Hlt : (0 < num_seqs_to_save MoreExamples.cfg_append)%Z)
    by (simpl; lia).
  split; [exact Hlt|]. split; [reflexivity|]. split; [reflexivity|].
  refine (proj2 (grab_batch_partial_write 0 Examples.char_tok
                   MoreExamples.cfg_append 0
                   MoreExamples.world_bad_second_group
                   [RawMessageRecord Examples.chat_c 3]
                   [Examples.group_of 2]
                   [[RawMessageRecord Examples.chat_a 1;
                     RawMessageRecord Examples.chat_a 1]]
                   MoreExamples.group_no_messages (KeyError "messages")
                   [Examples.group_of 1] [] Hlt eq_refl eq_refl _ eq_refl)).
  constructor; [reflexivity | constructor].
Defined.

(* ================================================================= *)
(** ** The acquisition loop *)

Lemma grab_batch_writes (tok : Tokenizer) (cfg : Config) (w : World)
    (pending : list SftRecord) :
  buffer w = Some pending ->
  exists more,
    trace (snd (grab_batch tok cfg w)) = trace w ++ more /\
    buffer (snd (grab_batch tok cfg w)) = Some (pending ++ writes more) /\
    disk (snd (grab_batch tok cfg w)) = disk w /\
    Forall (is_loop_event (api_url cfg)) more /\
    forall n, fst (grab_batch tok cfg w) = Returned n ->
              n = Z.of_nat (List.length (writes more)).
Proof.
  intros Hb. unfold grab_batch, bind, check_for_batch.
  destruct (poll_events (api_url cfg) (responses w) (trace w))
    as (polls & Hm & HP & _).
  destruct (poll (api_url cfg) (responses w) (trace w)) as [o [rs tr]].
  cbn [fst snd] in Hm. subst tr.
  assert (Hloop : Forall (is_loop_event (api_url cfg)) polls).
  { eapply Forall_impl; [|exact HP]. apply poll_event_is_loop_event. }
  pose proof (writes_poll_events _ _ HP) as Hw.
  destruct o as [data|e| |].
  - match goal with
    | |- context [write_groups tok cfg data 0%Z ?w1] =>
        destruct (write_groups_writes tok cfg data 0%Z w1 pending Hb)
          as (wr & Ht & Hk & Hd & Hn)
    end.
    exists (polls ++ map FileWrite wr).
    rewrite Ht, Hk, Hd, writes_app, Hw, writes_map_FileWrite.
    cbn [trace disk app].
    rewrite app_assoc. split; [reflexivity|]. split; [reflexivity|].
    split; [reflexivity|]. split.
    + apply Forall_app. split; [exact Hloop|].
      apply Forall_forall. intros ev Hev.
      apply in_map_iff in Hev as (x & <- & _). exact I.
    + intros n H. rewrite (Hn n H). lia.
  - exists polls. cbn [fst snd trace disk buffer]. rewrite Hw, app_nil_r.
    split; [reflexivity|]. split; [exact Hb|]. split; [reflexivity|].
    split; [exact Hloop | discriminate].
  - exists polls. cbn [fst snd trace disk buffer]. rewrite Hw, app_nil_r.
    split; [reflexivity|]. split; [exact Hb|]. split; [reflexivity|].
    split; [exact Hloop | discriminate].
  - exists polls. cbn [fst snd trace disk buffer]. rewrite Hw, app_nil_r.
    split; [reflexivity|]. split; [exact Hb|]. split; [reflexivity|].
    split; [exact Hloop | discriminate].
Qed.

Lemma grab_loop_writes (fuel : nat) (tok : Tokenizer) (cfg : Config)
    (total_count : Z) (w : World) (pending : list SftRecord) :
  buffer w = Some pending ->
  exists more,
    trace (snd (grab_loop fuel tok cfg total_count w)) = trace w ++ more /\
    buffer (snd (grab_loop fuel tok cfg total_count w))
    = Some (pending ++ writes more) /\
    disk (snd (grab_loop fuel tok cfg total_count w)) = disk w /\
    Forall (is_loop_event (api_url cfg)) more /\
    forall total,
      fst (grab_loop fuel tok cfg total_count w) = Returned total ->
      total = (total_count + Z.of_nat (List.length (writes more)))%Z /\
      (num_seqs_to_save cfg <= total)%Z.
Proof.
  revert total_count w pending. induction fuel as [|fuel IH];
    intros total_count w pending Hb;
    destruct (total_count <? num_seqs_to_save cfg)%Z eqn:E.
  - cbn [grab_loop]. rewrite E. exists []. cbn. rewrite !app_nil_r.
    split; [reflexivity|]. split; [exact Hb|]. split; [reflexivity|].
    split; [constructor | discriminate].
  - cbn [grab_loop]. rewrite E. apply Z.ltb_ge in E. exists []. cbn.
    rewrite !app_nil_r.
    split; [reflexivity|]. split; [exact Hb|]. split; [reflexivity|].
    split; [constructor|]. intros total H. injection H as <-. lia.
  - apply Z.ltb_lt in E.
    destruct (grab_batch_writes tok cfg w pending Hb)
      as (m1 & Ht & Hk & Hd & HF & Hn).
    destruct (grab_batch tok cfg w) as [o w1] eqn:Hbatch.
    cbn [fst snd] in Ht, Hk, Hd, Hn.
    assert (Hstop : (forall n, o <> Returned n) ->
              exists more,
                trace (snd (grab_loop (S fuel) tok cfg total_count w))
                = trace w ++ more /\
                buffer (snd (grab_loop (S fuel) tok cfg total_count w))
                = Some (pending ++ writes more) /\
                disk (snd (grab_loop (S fuel) tok cfg total_count w))
                = disk w /\
                Forall (is_loop_event (api_url cfg)) more /\
                forall total,
                  fst (grab_loop (S fuel) tok cfg total_count w)
                  = Returned total ->
                  total = (total_count
                           + Z.of_nat (List.length (writes more)))%Z /\
                  (num_seqs_to_save cfg <= total)%Z).
    { intros Ho.
      rewrite (grab_loop_stop fuel tok cfg total_count w w1 o E Hbatch Ho).
      exists m1. cbn [fst snd].
      split; [exact Ht|]. split; [exact Hk|]. split; [exact Hd|].
      split; [exact HF|].
      intros total H. now contradiction (Ho total). }
    destruct o as [n|e| |]; try (apply Hstop; intros n; discriminate).
    clear Hstop. specialize (Hn n eq_refl).
    rewrite (grab_loop_turn fuel tok cfg total_count n w w1 E Hbatch).
    match goal with
    | |- context [grab_loop fuel tok cfg ?c ?w2] =>
        destruct (IH c w2 (pending ++ writes m1) Hk)
          as (m2 & Ht2 & Hk2 & Hd2 & HF2 & Hn2)
    end.
    cbn [trace disk] in Ht2, Hd2.
    exists (m1 ++ PbarUpdate
                    (Z.min n (num_seqs_to_save cfg - (total_count + n)))
               :: m2).
    split; [|split; [|split; [|split]]].
    + rewrite Ht2, Ht, <- !app_assoc. reflexivity.
    + rewrite Hk2, !writes_app. cbn [writes]. now rewrite <- app_assoc.
    + rewrite Hd2. exact Hd.
    + apply Forall_app. split; [exact HF|]. constructor; [exact I|exact HF2].
    + intros total H. apply Hn2 in H as [-> Hge]. split; [|exact Hge].
      rewrite !writes_app. cbn [writes]. rewrite length_app. lia.
  - cbn [grab_loop]. rewrite E. apply Z.ltb_ge in E. exists []. cbn.
    rewrite !app_nil_r.
    split; [reflexivity|]. split; [exact Hb|]. split; [reflexivity|].
    split; [constructor|]. intros total H. injection H as <-. lia.
Qed.

(** The [with] block around the loop: what has been written is in the file
    once the block is left, and in the file or its buffer before. *)
Lemma with_block_writes (fuel : nat) (tok : Tokenizer) (cfg : Config)
    (total_count : Z) (w : World) (ls pending : list SftRecord) :
  disk w = Some ls ->
  buffer w = Some pending ->
  exists more,
    trace (snd (finally (grab_loop fuel tok cfg total_count) close_file w))
    = trace w ++ more /\
    Forall (is_loop_event (api_url cfg)) more /\
    (forall total,
       fst (finally (grab_loop fuel tok cfg total_count) close_file w)
       = Returned total ->
       total = (total_count + Z.of_nat (List.length (writes more)))%Z /\
       (num_seqs_to_save cfg <= total)%Z) /\
    if finished
         (fst (finally (grab_loop fuel tok cfg total_count) close_file w))
    then
      disk (snd (finally (grab_loop fuel tok cfg total_count) close_file w))
      = Some (ls ++ pending ++ writes more) /\
      buffer (snd (finally (grab_loop fuel tok cfg total_count) close_file w))
      = None
    else
      lines_of
        (disk (snd (finally (grab_loop fuel tok cfg total_count)
                      close_file w)))
      ++ lines_of
           (buffer (snd (finally (grab_loop fuel tok cfg total_count)
                           close_file w)))
      = ls ++ pending ++ writes more.
Proof.
  intros Hd Hb.
  destruct (grab_loop_writes fuel tok cfg total_count w pending Hb)
    as (more & Ht & Hk & Hdk & HF & Hn).
  exists more. unfold finally.
  destruct (grab_loop fuel tok cfg total_count w) as [[a|e| |] w1];
    cbn [fst snd finished close_file trace disk buffer] in *;
    rewrite ?Hk, ?Hdk, ?Hd; cbn [lines_of];
    (split; [exact Ht|]); (split; [exact HF|]);
    (split; [first [exact Hn | discriminate]|]);
    try (split; reflexivity); reflexivity.
Qed.

(** A run that gets past the check of the output path is the [with] block
    around the loop, entered on the opened file after the handshake. *)
Lemma sft_data_grabber_fuel_accepted (from_pretrained : string -> Tokenizer)
    (fuel : nat) (cfg : Config) (w : World) :
  path_accepted cfg w ->
  sft_data_grabber_fuel from_pretrained fuel cfg w
  = finally (grab_loop fuel (from_pretrained (tokenizer cfg)) cfg 0)
      close_file
      {| responses := responses w;
         disk := Some (kept_lines cfg w);
         buffer := Some [];
         trace := trace w ++ handshake cfg
                  ++ [FileOpen (filepath cfg) (open_mode cfg w)] |}.
Proof.
  intros Hacc. unfold sft_data_grabber_fuel.
  unfold bind at 1. rewrite register_to_api_run.
  unfold bind at 1. unfold path_exists at 1. cbn [disk].
  assert (Hc : (match disk w with Some _ => true | None => false end)
               && negb (append_to_previous cfg) = false).
  { destruct Hacc as [-> | ->]; [reflexivity | apply andb_false_r]. }
  rewrite Hc.
  unfold bind at 1. unfold path_exists at 1. cbn [disk].
  unfold bind at 1. unfold open_file at 1. cbn [responses disk trace].
  f_equal. unfold handshake, run_register_body, open_mode, kept_lines.
  rewrite <- !app_assoc. cbn [app].
  destruct (append_to_previous cfg), (disk w); reflexivity.
Qed.

Lemma sft_data_grabber_fuel_rejected (from_pretrained : string -> Tokenizer)
    (fuel : nat) (cfg : Config) (w : World) :
  ~ path_accepted cfg w ->
  exists e,
    sft_data_grabber_fuel from_pretrained fuel cfg w
    = (Raised e,
       {| responses := responses w;
          disk := disk w;
          buffer := buffer w;
          trace := trace w ++ handshake cfg |}).
Proof.
  intros Hrej. unfold path_accepted in Hrej.
  destruct (disk w) as [ls|] eqn:Hd; [|exfalso; apply Hrej; now left].
  destruct (append_to_previous cfg) eqn:Ha;
    [exfalso; apply Hrej; now right|].
  unfold sft_data_grabber_fuel.
  unfold bind at 1. rewrite register_to_api_run.
  unfold bind at 1. unfold path_exists at 1. cbn [disk].
  rewrite Hd, Ha. cbn [andb negb]. unfold raise. eexists. reflexivity.
Qed.

Lemma path_accepted_dec (cfg : Config) (w : World) :
  path_accepted cfg w \/ ~ path_accepted cfg w.
Proof.
  unfold path_accepted. destruct (disk w); destruct (append_to_previous cfg);
    auto. right. intros [H|H]; discriminate H.
Qed.

Lemma grab_loop_done (fuel : nat) (tok : Tokenizer) (cfg : Config)
    (total_count : Z) (w : World) :
  (num_seqs_to_save cfg <= total_count)%Z ->
  grab_loop fuel tok cfg total_count w = (Returned total_count, w).
Proof.
  intros H. apply Z.ltb_ge in H. destruct fuel; cbn [grab_loop];
    now rewrite H.
Qed.

(** X12: a run that asks for no record ([num_seqs_to_save <= 0]) and gets
    past the check of the output path still resets and registers, and opens
    the output file (creating or truncating it unless it appends to an
    existing one), but requests no batch and returns with a count of 0,
    the file closed again. *)
Theorem sft_data_grabber_zero_target (from_pretrained : string -> Tokenizer)
    (cfg : Config) (w : World) :
  (num_seqs_to_save cfg <= 0)%Z ->
  path_accepted cfg w ->
  sft_data_grabber from_pretrained cfg w
  = (Returned 0%Z,
     {| responses := responses w;
        disk := Some (kept_lines cfg w);
        buffer := None;
        trace := trace w ++ handshake cfg
                 ++ [FileOpen (filepath cfg) (open_mode cfg w)] |}).
Proof.
  intros Hn Hacc. unfold sft_data_grabber.
  rewrite sft_data_grabber_fuel_accepted by exact Hacc.
  unfold finally. rewrite grab_loop_done by exact Hn.
  unfold close_file. cbn [snd responses disk buffer trace lines_of].
  now rewrite app_nil_r.
Qed.

Lemma sft_data_grabber_zero_target_witness :
  (num_seqs_to_save MoreExamples.cfg_zero <= 0)%Z /\
  path_accepted MoreExamples.cfg_zero Examples.world_3_then_4 /\
  sft_data_grabber Examples.from_pretrained MoreExamples.cfg_zero
    Examples.world_3_then_4
  = (Returned 0%Z,
     {| responses := responses Examples.world_3_then_4;
        disk := Some [];
        buffer := None;
        trace := handshake MoreExamples.cfg_zero
                 ++ [FileOpen "sft_data.jsonl" ModeWrite] |}).
Proof.
  assert (Hn : (num_seqs_to_save MoreExamples.cfg_zero <= 0)%Z)
    by (simpl; lia).
  assert (Hacc : path_accepted MoreExamples.cfg_zero Examples.world_3_then_4)
    by (left; reflexivity).
  split; [exact Hn|]. split; [exact Hacc|].
  exact (sft_data_grabber_zero_target Examples.from_pretrained
           MoreExamples.cfg_zero Examples.world_3_then_4 Hn Hacc).
Defined.

(** X13: when a run that gets past the check of the output path returns or
    raises, the [with] block has closed the output file, which then holds
    the lines it kept at opening (the old ones when appending, none
    otherwise) followed by exactly the records written during the run, in
    the order written; the old lines are never changed.  As long as the run
    has not ended, what has been written is in the file or still in the
    buffer of the file object: nothing is said to be in the file before it
    is closed. *)
Theorem sft_data_grabber_file_contents
    (from_pretrained : string -> Tokenizer) (cfg : Config) (w : World) :
  path_accepted cfg w ->
  exists more,
    trace (snd (sft_data_grabber from_pretrained cfg w))
    = trace w ++ handshake cfg
      ++ FileOpen (filepath cfg) (open_mode cfg w) :: more /\
    if finished (fst (sft_data_grabber from_pretrained cfg w))
    then
      disk (snd (sft_data_grabber from_pretrained cfg w))
      = Some (kept_lines cfg w ++ writes more) /\
      buffer (snd (sft_data_grabber from_pretrained cfg w)) = None
    else
      lines_of (disk (snd (sft_data_grabber from_pretrained cfg w)))
      ++ lines_of (buffer (snd (sft_data_grabber from_pretrained cfg w)))
      = kept_lines cfg w ++ writes more.
Proof.
  intros Hacc. unfold sft_data_grabber.
  rewrite sft_data_grabber_fuel_accepted by exact Hacc.
  match goal with
  | |- context [finally (grab_loop ?f ?tok cfg 0%Z) close_file ?w1] =>
      destruct (with_block_writes f tok cfg 0%Z w1 (kept_lines cfg w) []
                  eq_refl eq_refl) as (more & Ht & _ & _ & Hfile)
  end.
  exists more. rewrite Ht. cbn [trace app] in *.
  rewrite <- !app_assoc. split; [reflexivity | exact Hfile].
Qed.

Lemma sft_data_grabber_file_contents_witness :
  path_accepted MoreExamples.cfg_append Examples.world_file_exists /\
  finished (fst (sft_data_grabber Examples.from_pretrained
                   MoreExamples.cfg_append Examples.world_file_exists))
  = true /\
  disk (snd (sft_data_grabber Examples.from_pretrained
               MoreExamples.cfg_append Examples.world_file_exists))
  = Some (RawMessageRecord Examples.chat_a 1
          :: repeat (RawMessageRecord Examples.chat_a 1) 3).
Proof.
  assert (Hacc : path_accepted MoreExamples.cfg_append
                   Examples.world_file_exists) by (right; reflexivity).
  assert (Hfin : finished
                   (fst (sft_data_grabber Examples.from_pretrained
                           MoreExamples.cfg_append
                           Examples.world_file_exists)) = true)
    by reflexivity.
  split; [exact Hacc|]. split; [exact Hfin|].
  destruct (sft_data_grabber_file_contents Examples.from_pretrained
              MoreExamples.cfg_append Examples.world_file_exists Hacc)
    as (more & _ & Hfile).
  rewrite Hfin in Hfile. destruct Hfile as [Hd _].
  rewrite Hd. vm_compute in Hd. exact (eq_sym Hd).
Defined.

(** X14: when a run returns, the count it ends with is the number of
    records it has written to the output file, and it is at least
    [num_seqs_to_save]. *)
Theorem sft_data_grabber_count_is_written
    (from_pretrained : string -> Tokenizer) (cfg : Config) (w : World)
    (total : Z) :
  fst (sft_data_grabber from_pretrained cfg w) = Returned total ->
  exists more,
    trace (snd (sft_data_grabber from_pretrained cfg w))
    = trace w ++ handshake cfg
      ++ FileOpen (filepath cfg) (open_mode cfg w) :: more /\
    total = Z.of_nat (List.length (writes more)) /\
    (num_seqs_to_save cfg <= total)%Z.
Proof.
  unfold sft_data_grabber. intros Hret.
  destruct (path_accepted_dec cfg w) as [Hacc|Hrej].
  - rewrite sft_data_grabber_fuel_accepted in * by exact Hacc.
    match goal with
    | |- context [finally (grab_loop ?f ?tok cfg 0%Z) close_file ?w1] =>
        destruct (with_block_writes f tok cfg 0%Z w1 (kept_lines cfg w) []
                    eq_refl eq_refl) as (more & Ht & _ & Hn & _)
    end.
    exists more. rewrite Ht. cbn [trace]. rewrite <- !app_assoc.
    destruct (Hn total Hret) as [Htot Hge].
    split; [reflexivity|]. split; [rewrite Htot; lia | exact Hge].
  - destruct (sft_data_grabber_fuel_rejected from_pretrained
                (S (List.length (responses w))) cfg w Hrej) as [e He].
    rewrite He in Hret. discriminate Hret.
Qed.

Lemma sft_data_grabber_count_is_written_witness :
  fst (sft_data_grabber Examples.from_pretrained Examples.cfg5
         Examples.world_3_then_4) = Returned 7%Z /\
  exists more,
    trace (snd (sft_data_grabber Examples.from_pretrained Examples.cfg5
                  Examples.world_3_then_4))
    = handshake Examples.cfg5 ++ FileOpen "sft_data.jsonl" ModeWrite :: more /\
    7%Z = Z.of_nat (List.length (writes more)).
Proof.
  split; [reflexivity|].
  destruct (sft_data_grabber_count_is_written Examples.from_pretrained
              Examples.cfg5 Examples.world_3_then_4 7 eq_refl)
    as (more & Ht & Hn & _).
  exists more. split; [exact Ht | exact Hn].
Defined.

Lemma last_event_snoc (tr : list Event) (e : Event) :
  last_event (tr ++ [e]) = Some e.
Proof. unfold last_event. now rewrite rev_unit. Qed.

Lemma grab_loop_last_update (fuel : nat) (tok : Tokenizer) (cfg : Config)
    (total_count : Z) (w : World) (total : Z) (w' : World) :
  (total_count < num_seqs_to_save cfg)%Z ->
  grab_loop fuel tok cfg total_count w = (Returned total, w') ->
  exists n,
    last_event (trace w') = Some (PbarUpdate n) /\
    (n <= num_seqs_to_save cfg - total)%Z /\
    (num_seqs_to_save cfg <= total)%Z.
Proof.
  revert total_count w. induction fuel as [|fuel IH];
    intros total_count w Hlt Hrun.
  - cbn [grab_loop] in Hrun. apply Z.ltb_lt in Hlt. rewrite Hlt in Hrun.
    discriminate Hrun.
  - destruct (grab_batch tok cfg w) as [o w1] eqn:Hb.
    destruct o as [b|e| |];
      try (rewrite (grab_loop_stop fuel tok cfg total_count w w1 _ Hlt Hb)
             in Hrun by (intros n; discriminate); discriminate Hrun).
    rewrite (grab_loop_turn fuel tok cfg total_count b w w1 Hlt Hb) in Hrun.
    destruct (Z.lt_ge_cases (total_count + b) (num_seqs_to_save cfg))
      as [Hlt'|Hge].
    + exact (IH _ _ Hlt' Hrun).
    + rewrite (grab_loop_done fuel tok cfg _ _ Hge) in Hrun.
      injection Hrun as <- <-. eexists. cbn [trace].
      split; [apply last_event_snoc|]. split; [apply Z.le_min_r | exact Hge].
Qed.

(** Leaving the [with] block adds no event. *)
Lemma finally_close_returned {A} (c : IO A) (w : World) (a : A)
    (w' : World) :
  finally c close_file w = (Returned a, w') ->
  exists w1, c w = (Returned a, w1) /\ trace w' = trace w1.
Proof.
  unfold finally. destruct (c w) as [[a1|e| |] w1]; intros H;
    try discriminate H.
  injection H as -> <-. now exists w1.
Qed.

(** X15: when a run that asked for at least one record returns, the last
    thing it did was a progress update, and the increment it reported there
    is [num_seqs_to_save - total] at most, which is never positive: the
    batch that completes the target is not credited to the progress bar. *)
Theorem sft_data_grabber_last_update_not_positive
    (from_pretrained : string -> Tokenizer) (cfg : Config) (w : World)
    (total : Z) (w' : World) :
  (0 < num_seqs_to_save cfg)%Z ->
  sft_data_grabber from_pretrained cfg w = (Returned total, w') ->
  exists n,
    last_event (trace w') = Some (PbarUpdate n) /\
    (n <= num_seqs_to_save cfg - total)%Z /\
    (n <= 0)%Z.
Proof.
  unfold sft_data_grabber. intros Hpos Hrun.
  destruct (path_accepted_dec cfg w) as [Hacc|Hrej].
  - rewrite sft_data_grabber_fuel_accepted in Hrun by exact Hacc.
    apply finally_close_returned in Hrun as (w1 & Hrun & ->).
    destruct (grab_loop_last_update _ _ _ _ _ _ _ Hpos Hrun)
      as (n & Hlast & Hle & Hge).
    exists n. split; [exact Hlast|]. split; [exact Hle | lia].
  - destruct (sft_data_grabber_fuel_rejected from_pretrained
                (S (List.length (responses w))) cfg w Hrej) as [e He].
    rewrite He in Hrun. discriminate Hrun.
Qed.

Lemma sft_data_grabber_last_update_not_positive_witness :
  (0 < num_seqs_to_save MoreExamples.cfg_append)%Z /\
  fst (sft_data_grabber Examples.from_pretrained MoreExamples.cfg_append
         Examples.world_file_exists) = Returned 3%Z /\
  exists n,
    last_event
      (trace (snd (sft_data_grabber Examples.from_pretrained
                     MoreExamples.cfg_append Examples.world_file_exists)))
    = Some (PbarUpdate n) /\
    (n <= 2 - 3)%Z.
Proof.
  assert (Hpos : (0 < num_seqs_to_save MoreExamples.cfg_append)%Z)
    by (simpl; lia).
  split; [exact Hpos|]. split; [reflexivity|].
  destruct (sft_data_grabber_last_update_not_positive
              Examples.from_pretrained MoreExamples.cfg_append
              Examples.world_file_exists 3
              (snd (sft_data_grabber Examples.from_pretrained
                      MoreExamples.cfg_append Examples.world_file_exists))
              Hpos eq_refl) as (n & Hlast & Hle & _).
  exists n. split; [exact Hlast | exact Hle].
Defined.

Lemma loop_events_requests (api_url : string) (l : list Event) :
  Forall (is_loop_event api_url) l ->
  filter is_request l
  = repeat (HttpGet (api_url ++ "/batch"))
           (List.length (filter is_request l)).
Proof.
  induction 1 as [|e l He _ IH]; [reflexivity|].
  destruct e; cbn [filter is_request]; try exact IH.
  - cbn [is_loop_event] in He. subst url. cbn [List.length repeat].
    now f_equal.
  - destruct He.
Qed.

(** X17: the requests of a run, in order, are the reset, the registration
    and then next-batch requests only: a run registers once, and it never
    resets or registers again, however it ends. *)
Theorem sft_data_grabber_requests (from_pretrained : string -> Tokenizer)
    (cfg : Config) (w : World) :
  exists more j,
    trace (snd (sft_data_grabber from_pretrained cfg w)) = trace w ++ more /\
    filter is_request more
    = HttpGet (api_url cfg ++ "/reset_data")
      :: HttpPost (api_url cfg ++ "/register") (run_register_body cfg)
      :: repeat (HttpGet (api_url cfg ++ "/batch")) j.
Proof.
  unfold sft_data_grabber.
  destruct (path_accepted_dec cfg w) as [Hacc|Hrej].
  - rewrite sft_data_grabber_fuel_accepted by exact Hacc.
    match goal with
    | |- context [finally (grab_loop ?f ?tok cfg 0%Z) close_file ?w1] =>
        destruct (with_block_writes f tok cfg 0%Z w1 (kept_lines cfg w) []
                    eq_refl eq_refl) as (more & Ht & HF & _)
    end.
    exists (handshake cfg
            ++ FileOpen (filepath cfg) (open_mode cfg w) :: more),
           (List.length (filter is_request more)).
    rewrite Ht. cbn [trace]. rewrite <- !app_assoc. split; [reflexivity|].
    unfold handshake. cbn [app filter is_request].
    now rewrite <- loop_events_requests.
  - destruct (sft_data_grabber_fuel_rejected from_pretrained
                (S (List.length (responses w))) cfg w Hrej) as [e He].
    rewrite He. exists (handshake cfg), 0. split; reflexivity.
Qed.

(** X18: resuming.  A run that appends to an existing file of [N] lines and
    returns with the count [total] leaves a file of [N + total] lines: the
    old lines, unchanged, followed by the [total] records of this run. *)
Theorem sft_data_grabber_resumes (from_pretrained : string -> Tokenizer)
    (cfg : Config) (w : World) (ls : list SftRecord) (total : Z) :
  disk w = Some ls ->
  append_to_previous cfg = true ->
  fst (sft_data_grabber from_pretrained cfg w) = Returned total ->
  exists new,
    disk (snd (sft_data_grabber from_pretrained cfg w)) = Some (ls ++ new) /\
    Z.of_nat (List.length new) = total.
Proof.
  unfold sft_data_grabber. intros Hd Ha Hret.
  assert (Hacc : path_accepted cfg w) by (right; exact Ha).
  rewrite sft_data_grabber_fuel_accepted in * by exact Hacc.
  assert (Hkept : kept_lines cfg w = ls).
  { unfold kept_lines. now rewrite Ha, Hd. }
  match goal with
  | |- context [finally (grab_loop ?f ?tok cfg 0%Z) close_file ?w1] =>
      destruct (with_block_writes f tok cfg 0%Z w1 (kept_lines cfg w) []
                  eq_refl eq_refl) as (more & _ & _ & Hn & Hfile)
  end.
  rewrite Hret in Hfile. cbn [finished app] in Hfile.
  destruct Hfile as [Hk _].
  exists (writes more). rewrite Hk, Hkept. split; [reflexivity|].
  destruct (Hn total Hret) as [-> _]. lia.
Qed.

Lemma sft_data_grabber_resumes_witness :
  disk Examples.world_file_exists
    = Some [RawMessageRecord Examples.chat_a 1] /\
  append_to_previous MoreExamples.cfg_append = true /\
  fst (sft_data_grabber Examples.from_pretrained MoreExamples.cfg_append
         Examples.world_file_exists) = Returned 3%Z /\
  exists new,
    disk (snd (sft_data_grabber Examples.from_pretrained
                 MoreExamples.cfg_append Examples.world_file_exists))
    = Some ([RawMessageRecord Examples.chat_a 1] ++ new) /\
    Z.of_nat (List.length new) = 3%Z.
Proof.
  split; [reflexivity|]. split; [reflexivity|]. split; [reflexivity|].
  exact (sft_data_grabber_resumes Examples.from_pretrained
           MoreExamples.cfg_append Examples.world_file_exists
           [RawMessageRecord Examples.chat_a 1] 3 eq_refl eq_refl eq_refl).
Defined.
